(** * Verification of the electoral_search match pipeline

    A shallow embedding of [src/electoral_search/text_processing.py],
    [cache.py], [parallel.py], [validation.py], [export.py], [ocr.py]
    (and the orchestration in [cli.py]) together
    with the parts of the [rapidfuzz] library and of Python's [re] engine
    that the claims depend on.

    Python strings ([str]) are sequences of Unicode code points; they are
    modelled as [list N]. *)

From Stdlib Require Import List Bool Arith Lia NArith ZArith QArith Lqa.
From Stdlib Require Import Sorting.Permutation Sorting.Sorted QArith.Qminmax.
From Stdlib Require Strings.String Strings.Ascii.
Import ListNotations.
Open Scope nat_scope.

(** ** Code points and Python string primitives *)
Module Text.

Definition text := list N.

(** [str.isspace] / the regex class [\s] for [str] patterns: the code
    points whose bidirectional class is WS, B or S, or whose category
    is Zs. *)
Definition isspace (c : N) : bool :=
  ((9 <=? c) && (c <=? 13))%N || ((28 <=? c) && (c <=? 32))%N
  || (c =? 133)%N || (c =? 160)%N || (c =? 5760)%N
  || ((8192 <=? c) && (c <=? 8202))%N || (c =? 8232)%N || (c =? 8233)%N
  || (c =? 8239)%N || (c =? 8287)%N || (c =? 12288)%N.

Definition newline : N := 10%N.
Definition space : N := 32%N.

Fixpoint lstrip (s : text) : text :=
  match s with
  | [] => []
  | c :: r => if isspace c then lstrip r else s
  end.

(** [str.strip()] with no argument. *)
Definition strip (s : text) : text := rev (lstrip (rev (lstrip s))).

Fixpoint mem (c : N) (l : text) : bool :=
  match l with
  | [] => false
  | d :: r => (c =? d)%N || mem c r
  end.

(** [text.translate(str.maketrans("", "", dels))]: every code point that
    occurs in [dels] is deleted. *)
Definition translate_delete (dels : text) (s : text) : text :=
  filter (fun c => negb (mem c dels)) s.

(** [text.split("\n\n")], scanning left to right for non-overlapping
    occurrences of the separator. *)
Fixpoint split_nn (s : text) : list text :=
  match s with
  | [] => [[]]
  | c :: rest =>
      match rest with
      | [] => [[c]]
      | d :: rest' =>
          if (c =? newline)%N && (d =? newline)%N then [] :: split_nn rest'
          else match split_nn rest with
               | b :: bs => (c :: b) :: bs
               | [] => [[c]]
               end
      end
  end.

(** Whitespace-separated tokens: [str.split()] with no argument. *)
Fixpoint split_ws_acc (cur : text) (s : text) : list text :=
  match s with
  | [] => match cur with [] => [] | _ => [rev cur] end
  | c :: r =>
      if isspace c then
        match cur with
        | [] => split_ws_acc [] r
        | _ => rev cur :: split_ws_acc [] r
        end
      else split_ws_acc (c :: cur) r
  end.

Definition split_ws (s : text) : list text := split_ws_acc [] s.

Fixpoint text_eqb (a b : text) : bool :=
  match a, b with
  | [], [] => true
  | x :: a', y :: b' => (x =? y)%N && text_eqb a' b'
  | _, _ => false
  end.

(** Python's [<=] on [str]: lexicographic order on code points. *)
Fixpoint text_leb (a b : text) : bool :=
  match a, b with
  | [], _ => true
  | _ :: _, [] => false
  | x :: a', y :: b' => (x <? y)%N || ((x =? y)%N && text_leb a' b')
  end.

(** ["sep".join(l)] *)
Fixpoint join (sep : text) (l : list text) : text :=
  match l with
  | [] => []
  | [x] => x
  | x :: r => x ++ sep ++ join sep r
  end.

(** [sorted(l)]: Python's sort is stable, so on a total order its result is
    the unique ordered permutation; insertion sort computes it. *)
Fixpoint insert_sorted (x : text) (l : list text) : list text :=
  match l with
  | [] => [x]
  | y :: r => if text_leb x y then x :: l else y :: insert_sorted x r
  end.

Fixpoint sorted (l : list text) : list text :=
  match l with
  | [] => []
  | x :: r => insert_sorted x (sorted r)
  end.

(** Bengali code points used by the source. *)
Definition BN_NA : N := 2472%N.       (* U+09A8 *)
Definition BN_AA : N := 2494%N.       (* U+09BE, vowel sign aa *)
Definition BN_MA : N := 2478%N.       (* U+09AE *)
Definition BN_PA : N := 2474%N.       (* U+09AA *)
Definition BN_I : N := 2495%N.        (* U+09BF, vowel sign i *)
Definition BN_TA : N := 2468%N.       (* U+09A4 *)
Definition BN_RA : N := 2480%N.       (* U+09B0 *)
Definition BN_SA : N := 2488%N.       (* U+09B8 *)
Definition BN_BA : N := 2476%N.       (* U+09AC *)
Definition BN_II : N := 2496%N.       (* U+09C0, vowel sign ii *)
Definition BN_VISARGA : N := 2435%N.  (* U+0983 *)
Definition DANDA : N := 2404%N.       (* U+0964 *)
Definition BN_VIRAMA : N := 2509%N.   (* U+09CD *)
Definition COLON : N := 58%N.         (* ':' *)
Definition FW_COLON : N := 65306%N.   (* U+FF1A *)

End Text.

(** ** [normalize_bn] *)
Module Normalize.
Import Text.

(** The literal ["ঃ।্ "] of [normalize_bn]. *)
Definition strip_set : text := [BN_VISARGA; DANDA; BN_VIRAMA; space].

(** [normalize_bn(text)]: [if not text: return ""], then
    [text.translate(str.maketrans("", "", "ঃ।্ ")).strip()]. *)
Definition normalize_bn (s : text) : text :=
  match s with
  | [] => []
  | _ => strip (translate_delete strip_set s)
  end.

End Normalize.

(** ** The fragment of Python's [re] engine used by [NAME_RE] and [FATHER_RE]

    The patterns are compiled, as [sre_compile] does, into a list of
    opcodes; [run] is the backtracking interpreter: it tries the
    alternatives of each opcode in the engine's order and the first success
    wins. *)
Module Regex.
Import Text.

Inductive op : Type :=
| OLit (c : N)                          (* LITERAL c *)
| OIn (p : N -> bool)                   (* IN [...] / ANY *)
| OStar (p : N -> bool)                 (* REPEAT_ONE p {0,} : greedy [p*] *)
| OLazy (p : N -> bool) (lo hi : nat)   (* MIN_REPEAT_ONE p {lo,hi} : lazy *)
| OMark (i : nat)                       (* MARK i : group boundary *)
| OBranchLits (alts : list text)        (* BRANCH of literal alternatives *)
| ONlOrEol.                             (* (?:\n|$) with re.MULTILINE *)

(** Saved group boundaries, most recent first. *)
Definition marks := list (nat * nat).

Fixpoint run_len (p : N -> bool) (s : text) : nat :=
  match s with
  | [] => 0
  | c :: r => if p c then S (run_len p r) else 0
  end.

Fixpoint is_prefix (w s : text) : bool :=
  match w, s with
  | [], _ => true
  | x :: w', y :: s' => (x =? y)%N && is_prefix w' s'
  | _ :: _, [] => false
  end.

Fixpoint run (prog : list op) (s : text) (pos : nat) (m : marks)
  : option (nat * marks) :=
  match prog with
  | [] => Some (pos, m)
  | o :: rest =>
      let here := skipn pos s in
      match o with
      | OLit c =>
          match here with
          | c' :: _ => if (c =? c')%N then run rest s (S pos) m else None
          | [] => None
          end
      | OIn p =>
          match here with
          | c' :: _ => if p c' then run rest s (S pos) m else None
          | [] => None
          end
      | OStar p =>
          (* take the longest run, then give back one at a time *)
          let fix down (k : nat) :=
            match run rest s (pos + k) m with
            | Some r => Some r
            | None => match k with 0 => None | S k' => down k' end
            end in
          down (run_len p here)
      | OLazy p lo hi =>
          (* take [lo], then one more at a time up to [hi] *)
          let avail := Nat.min hi (run_len p here) in
          let fix up (n fuel : nat) :=
            match fuel with
            | 0 => None
            | S f =>
                match run rest s (pos + n) m with
                | Some r => Some r
                | None => up (S n) f
                end
            end in
          if lo <=? avail then up lo (S (avail - lo)) else None
      | OMark i => run rest s pos ((i, pos) :: m)
      | OBranchLits alts =>
          let fix alt (l : list text) :=
            match l with
            | [] => None
            | w :: l' =>
                if is_prefix w here then
                  match run rest s (pos + length w) m with
                  | Some r => Some r
                  | None => alt l'
                  end
                else alt l'
            end in
          alt alts
      | ONlOrEol =>
          let first :=
            match here with
            | c :: _ => if (c =? newline)%N then run rest s (S pos) m else None
            | [] => None
            end in
          match first with
          | Some r => Some r
          | None =>
              match here with
              | [] => run rest s pos m
              | c :: _ => if (c =? newline)%N then run rest s pos m else None
              end
          end
      end
  end.

(** A successful match: start, end and group marks. *)
Record match_obj := MkMatch { m_start : nat; m_end : nat; m_marks : marks }.

(** [pattern.search(s)]: leftmost start position at which [run] succeeds. *)
Fixpoint search_from (prog : list op) (s : text) (pos fuel : nat) : option match_obj :=
  match fuel with
  | 0 => None
  | S f =>
      match run prog s pos [] with
      | Some (e, m) => Some (MkMatch pos e m)
      | None => search_from prog s (S pos) f
      end
  end.

Definition search (prog : list op) (s : text) : option match_obj :=
  search_from prog s 0 (S (length s)).

Fixpoint lookup_mark (i : nat) (m : marks) : option nat :=
  match m with
  | [] => None
  | (j, p) :: r => if j =? i then Some p else lookup_mark i r
  end.

(** [match.group(g)] for [g >= 1]: the text between marks [2g-2] and
    [2g-1] (the empty text if the group did not participate). *)
Definition group (s : text) (mo : match_obj) (g : nat) : text :=
  match lookup_mark (2 * g - 2) (m_marks mo), lookup_mark (2 * g - 1) (m_marks mo) with
  | Some a, Some b => firstn (b - a) (skipn a s)
  | _, _ => []
  end.

Definition not_newline (c : N) : bool := negb (c =? newline)%N.
Definition is_colon (c : N) : bool := (c =? COLON)%N || (c =? FW_COLON)%N.

End Regex.

(** ** Record extraction ([extract_voter_blocks]) *)
Module Extract.
Import Text Regex.

(** ["নাম"] *)
Definition lbl_nam : text := [BN_NA; BN_AA; BN_MA].
(** ["পিতার নাম"] *)
Definition lbl_pitar_nam : text := [BN_PA; BN_I; BN_TA; BN_AA; BN_RA; space] ++ lbl_nam.
(** ["স্বামীর নাম"] *)
Definition lbl_swamir_nam : text :=
  [BN_SA; BN_VIRAMA; BN_BA; BN_AA; BN_MA; BN_II; BN_RA; space] ++ lbl_nam.

(** [NAME_RE = re.compile(r"নাম\s*[:：]\s*(.{1,200}?)(?:\n|$)", re.MULTILINE)] *)
Definition NAME_RE : list op :=
  [OLit BN_NA; OLit BN_AA; OLit BN_MA; OStar isspace; OIn is_colon; OStar isspace;
   OMark 0; OLazy not_newline 1 200; OMark 1; ONlOrEol].

(** [FATHER_RE = re.compile(r"(পিতার নাম|স্বামীর নাম)\s*[:：]\s*(.{1,200}?)(?:\n|$)", re.MULTILINE)] *)
Definition FATHER_RE : list op :=
  [OMark 0; OBranchLits [lbl_pitar_nam; lbl_swamir_nam]; OMark 1;
   OStar isspace; OIn is_colon; OStar isspace;
   OMark 2; OLazy not_newline 1 200; OMark 3; ONlOrEol].

Record BoundingBox := MkBBox { left : Z; top : Z; width : Z; height : Z }.

(** [VoterInfo]; the [NotRequired] keys are [None] when absent. *)
Record VoterInfo := MkVoter {
  name : text;
  father : text;
  name_bbox : option BoundingBox;
  father_bbox : option BoundingBox;
  confidence : option Q }.

(** The body of the loop of [extract_voter_blocks] for one block. *)
Definition block_voter (block : text) : option VoterInfo :=
  match search NAME_RE block, search FATHER_RE block with
  | Some name_match, Some father_match =>
      Some (MkVoter (strip (group block name_match 1))
                    (strip (group block father_match 2)) None None None)
  | _, _ => None
  end.

Fixpoint collect_voters (blocks : list text) : list VoterInfo :=
  match blocks with
  | [] => []
  | b :: bs =>
      match block_voter b with
      | Some v => v :: collect_voters bs
      | None => collect_voters bs
      end
  end.

(** [extract_voter_blocks(text)] *)
Definition extract_voter_blocks (s : text) : list VoterInfo :=
  collect_voters (split_nn s).

End Extract.

(** ** The [rapidfuzz] scorers used by the source

    [fuzz.ratio] and [fuzz.token_set_ratio] of the [rapidfuzz] dependency,
    following its pure-Python reference implementation ([fuzz_py.py],
    [Indel]); scores are kept as exact rationals. *)
Module Fuzz.
Import Text.

(** One row of the longest-common-subsequence table. *)
Fixpoint lcs_row (x : N) (b : text) (old : list nat) (left : nat) : list nat :=
  match b, old with
  | y :: b', d :: ((u :: _) as old') =>
      let v := if (x =? y)%N then S d else Nat.max u left in
      v :: lcs_row x b' old' v
  | _, _ => []
  end.

Definition lcs (a b : text) : nat :=
  last (fold_left (fun row x => 0 :: lcs_row x b row 0) a (repeat 0 (S (length b)))) 0.

(** [Indel.distance(s1, s2)]: insertions and deletions only. *)
Definition indel_distance (a b : text) : nat :=
  length a + length b - 2 * lcs a b.

(** [_norm_distance(dist, lensum, score_cutoff=0)] *)
Definition norm_distance (dist lensum : nat) : Q :=
  if lensum =? 0 then 100%Q
  else (100 - 100 * inject_Z (Z.of_nat dist) / inject_Z (Z.of_nat lensum))%Q.

(** [fuzz.ratio(s1, s2)] = [Indel.normalized_similarity(s1, s2) * 100]. *)
Definition ratio (a b : text) : Q :=
  let lensum := length a + length b in
  if lensum =? 0 then 100%Q
  else (100 * (1 - inject_Z (Z.of_nat (indel_distance a b)) / inject_Z (Z.of_nat lensum)))%Q.

Fixpoint tmem (t : text) (l : list text) : bool :=
  match l with
  | [] => false
  | u :: r => text_eqb t u || tmem t r
  end.

(** [set(tokens)]: the distinct tokens (the order is irrelevant below:
    only lengths and sorted joins are used). *)
Fixpoint dedup (l : list text) : list text :=
  match l with
  | [] => []
  | t :: r => if tmem t r then dedup r else t :: dedup r
  end.

Definition is_nil {A} (l : list A) : bool := match l with [] => true | _ => false end.

(** [fuzz.token_set_ratio(s1, s2)] with no processor and no cutoff. *)
Definition token_set_ratio (s1 s2 : text) : Q :=
  if is_nil s1 || is_nil s2 then 0%Q else
  let tokens_a := dedup (split_ws s1) in
  let tokens_b := dedup (split_ws s2) in
  if is_nil tokens_a || is_nil tokens_b then 0%Q else
  let intersect := filter (fun t => tmem t tokens_b) tokens_a in
  let diff_ab := filter (fun t => negb (tmem t tokens_b)) tokens_a in
  let diff_ba := filter (fun t => negb (tmem t tokens_a)) tokens_b in
  if negb (is_nil intersect) && (is_nil diff_ab || is_nil diff_ba) then 100%Q else
  let diff_ab_joined := join [space] (sorted diff_ab) in
  let diff_ba_joined := join [space] (sorted diff_ba) in
  let ab_len := length diff_ab_joined in
  let ba_len := length diff_ba_joined in
  let sect_len := length (join [space] intersect) in
  let sep := if sect_len =? 0 then 0 else 1 in
  let sect_ab_len := sect_len + sep + ab_len in
  let sect_ba_len := sect_len + sep + ba_len in
  let result := norm_distance (indel_distance diff_ab_joined diff_ba_joined)
                              (sect_ab_len + sect_ba_len) in
  if sect_len =? 0 then result else
  let sect_ab_ratio := norm_distance (sep + ab_len) (sect_len + sect_ab_len) in
  let sect_ba_ratio := norm_distance (sep + ba_len) (sect_len + sect_ba_len) in
  Qmax result (Qmax sect_ab_ratio sect_ba_ratio).

End Fuzz.

(** ** [fuzzy_match] *)
Module Match.
Import Text Normalize Fuzz.

(** The body of [fuzzy_match], over a scorer that may raise ([None]); the
    [try]/[except Exception] turns a raise into [False]. *)
Definition fuzzy_match_with (score : text -> text -> option Q)
    (a b : text) (threshold : Z) : bool :=
  if is_nil a || is_nil b then false
  else match score (normalize_bn a) (normalize_bn b) with
       | Some sc => Qle_bool (inject_Z threshold) sc
       | None => false
       end.

(** [fuzzy_match(a, b, threshold)] with [fuzz.token_set_ratio], which does
    not raise on strings. *)
Definition fuzzy_match (a b : text) (threshold : Z) : bool :=
  fuzzy_match_with (fun x y => Some (token_set_ratio x y)) a b threshold.

End Match.

(** ** Box attachment ([extract_voter_blocks_with_boxes]) *)
Module Boxes.
Import Text Normalize Fuzz Extract.

Record OCRWord := MkWord { w_text : text; w_confidence : Q; w_bbox : BoundingBox }.

Definition bbox_eqb (x y : BoundingBox) : bool :=
  (left x =? left y)%Z && (top x =? top y)%Z
  && (width x =? width y)%Z && (height x =? height y)%Z.

(** [==] on the [OCRWord] dicts (used by [not in]). *)
Definition word_eqb (x y : OCRWord) : bool :=
  text_eqb (w_text x) (w_text y) && Qeq_bool (w_confidence x) (w_confidence y)
  && bbox_eqb (w_bbox x) (w_bbox y).

Fixpoint word_in (w : OCRWord) (l : list OCRWord) : bool :=
  match l with
  | [] => false
  | u :: r => word_eqb w u || word_in w r
  end.

(** The score of one OCR word against one token:
    [fuzz.ratio(normalize_bn(token), normalize_bn(word["text"]))]. *)
Definition word_score (token : text) (w : OCRWord) : Q :=
  ratio (normalize_bn token) (normalize_bn (w_text w)).

(** The inner loop of [_find_text_words]: [best_match], [best_score = 0];
    a word replaces the best one when [score > best_score and score >= 70]. *)
Definition best_step (token : text) (acc : option OCRWord * Q) (w : OCRWord)
  : option OCRWord * Q :=
  let score := word_score token w in
  if negb (Qle_bool score (snd acc)) && Qle_bool 70 score then (Some w, score) else acc.

Definition best_word (token : text) (ocr_words : list OCRWord) : option OCRWord :=
  fst (fold_left (best_step token) ocr_words (None, 0%Q)).

(** The outer loop: [if best_match and best_match not in matching_words:
    matching_words.append(best_match)]. *)
Definition token_step (ocr_words : list OCRWord) (matching : list OCRWord) (token : text)
  : list OCRWord :=
  match best_word token ocr_words with
  | Some w => if word_in w matching then matching else matching ++ [w]
  | None => matching
  end.

(** [_find_text_words(search_text, ocr_words)] *)
Definition find_text_words (search_text : text) (ocr_words : list OCRWord) : list OCRWord :=
  if is_nil search_text || is_nil ocr_words then []
  else fold_left (token_step ocr_words) (split_ws search_text) [].

(** [_get_combined_bbox(ocr_words)] *)
Definition get_combined_bbox (ws : list OCRWord) : BoundingBox :=
  match ws with
  | [] => MkBBox 0 0 0 0
  | w0 :: _ =>
      let lefts := map (fun w => left (w_bbox w)) ws in
      let tops := map (fun w => top (w_bbox w)) ws in
      let rights := map (fun w => left (w_bbox w) + width (w_bbox w))%Z ws in
      let bottoms := map (fun w => top (w_bbox w) + height (w_bbox w))%Z ws in
      let min_left := fold_left Z.min lefts (left (w_bbox w0)) in
      let min_top := fold_left Z.min tops (top (w_bbox w0)) in
      let max_right := fold_left Z.max rights (left (w_bbox w0) + width (w_bbox w0))%Z in
      let max_bottom := fold_left Z.max bottoms (top (w_bbox w0) + height (w_bbox w0))%Z in
      MkBBox min_left min_top (max_right - min_left) (max_bottom - min_top)
  end.

Definition Qsum (l : list Q) : Q := fold_left Qplus l 0%Q.

(** The loop body of [extract_voter_blocks_with_boxes] for one text record
    (nothing in it raises, so the [except] fallback is not reached). The
    average confidence is the exact rational [sum / len], not the rounded
    float Python computes: only whether it is present is modelled
    faithfully, not its value. *)
Definition attach_boxes (ocr_words : list OCRWord) (voter_text : VoterInfo) : VoterInfo :=
  let name_words := find_text_words (name voter_text) ocr_words in
  let father_words := find_text_words (father voter_text) ocr_words in
  let name_bbox := if is_nil name_words then None else Some (get_combined_bbox name_words) in
  let father_bbox := if is_nil father_words then None else Some (get_combined_bbox father_words) in
  let all_words := name_words ++ father_words in
  let avg_conf :=
    if is_nil all_words then None
    else Some (Qsum (map w_confidence all_words) / inject_Z (Z.of_nat (length all_words)))%Q in
  MkVoter (name voter_text) (father voter_text) name_bbox father_bbox avg_conf.

(** [extract_voter_blocks_with_boxes(text, ocr_words)] *)
Definition extract_voter_blocks_with_boxes (s : text) (ocr_words : list OCRWord)
  : list VoterInfo :=
  map (attach_boxes ocr_words) (extract_voter_blocks s).

(** The selection rule as the spec words it: for each token, the word of
    maximal score at least 70 among the words not yet claimed by an earlier
    token of the field. *)
Definition token_step_unclaimed (ocr_words : list OCRWord) (matching : list OCRWord)
    (token : text) : list OCRWord :=
  match best_word token (filter (fun w => negb (word_in w matching)) ocr_words) with
  | Some w => matching ++ [w]
  | None => matching
  end.

Definition find_text_words_spec (search_text : text) (ocr_words : list OCRWord)
  : list OCRWord :=
  if is_nil search_text || is_nil ocr_words then []
  else fold_left (token_step_unclaimed ocr_words) (split_ws search_text) [].

End Boxes.

(** ** [ResultCache] ([cache.py])

    The cache directory is a map from cache keys to files; the documents
    are a map from paths to their bytes. [hashlib], [str.encode] and
    [str(int)] are pure library functions and are kept abstract. *)
Module Cache.
Import Text.

Section ResultCache.

(** [hashlib.sha256(data).hexdigest()] *)
Variable sha256_hex : list N -> text.
(** [str.encode()] (UTF-8) *)
Variable encode : text -> list N.
(** [str(threshold)] *)
Variable str_int : Z -> text.
(** A [SearchResult]; [json.dump] followed by [json.load] gives it back. *)
Variable SearchResult : Type.

Definition path := text.
Definition key := text.

(** [CACHE_VERSION = "1.0"] *)
Definition CACHE_VERSION : text := [49; 46; 48]%N.

(** What [open] + [json.load] find in an entry file. [version] is the
    value of ["version"] when it is a string ([None] when absent or of
    another type: both differ from [CACHE_VERSION]). *)
Inductive content : Type :=
| Unreadable                                     (* open/read raises *)
| Unparsable                                     (* json.load raises *)
| JsonNonDict                                    (* valid JSON, no [.get] *)
| JsonEntry (version : option text) (results : option (list SearchResult)).

Record cache_file := MkFile {
  mtime : Z;              (* st_mtime, in seconds *)
  body : content;
  unlinkable : bool }.    (* whether [Path.unlink] succeeds *)

Definition store := key -> option cache_file.
Definition docs := path -> option (list N).

Definition upd (st : store) (k : key) (v : option cache_file) : store :=
  fun k' => if text_eqb k' k then v else st k'.

(** A call either returns or raises to its caller. *)
Inductive outcome (A : Type) : Type :=
| Returned (a : A)
| Raised.
Arguments Returned {A} a.
Arguments Raised {A}.

(** [_get_cache_key(pdf_path, search_names, threshold)] from the
    document's bytes. *)
Definition cache_key (bytes : list N) (search_names : list text) (threshold : Z) : key :=
  let file_hash := sha256_hex bytes in
  let names_hash := firstn 16 (sha256_hex (encode (join [124%N] (sorted search_names)))) in
  file_hash ++ [95%N] ++ names_hash ++ [95%N] ++ str_int threshold.

(** [cache_path.unlink()]: removes the entry when the OS allows it. *)
Definition unlink (st : store) (k : key) : store :=
  match st k with
  | Some f => if unlinkable f then upd st k None else st
  | None => st
  end.

Record ResultCache := MkCache { ttl : Z }.   (* [timedelta(days=ttl_days)], in seconds *)

(** [ResultCache.get]. [_compute_file_hash] runs before the [try]: a
    document that cannot be read raises to the caller. Inside the [try],
    every failure ends in [except Exception]: [unlink] once more, errors
    ignored, [return None]. An [unlink] that raises in the expired or
    version branch lands in that same handler. *)
Definition get (self : ResultCache) (fs : docs) (st : store) (now : Z)
    (pdf_path : path) (search_names : list text) (threshold : Z)
  : outcome (option (list SearchResult)) * store :=
  match fs pdf_path with
  | None => (Raised, st)
  | Some bytes =>
      let k := cache_key bytes search_names threshold in
      match st k with
      | None => (Returned None, st)
      | Some f =>
          if (now - mtime f >? ttl self)%Z then (Returned None, unlink st k)
          else match body f with
               | Unreadable | Unparsable | JsonNonDict => (Returned None, unlink st k)
               | JsonEntry v r =>
                   match v with
                   | Some ver =>
                       if text_eqb ver CACHE_VERSION then
                         (Returned (Some match r with Some l => l | None => [] end), st)
                       else (Returned None, unlink st k)
                   | None => (Returned None, unlink st k)
                   end
               end
      end
  end.

(** How the write of [set] goes: [open(cache_path, "w")] may raise, or
    [json.dump] may raise after the file was truncated. *)
Inductive write_result := WriteOk | OpenFails | DumpFails.

(** [ResultCache.set]. The key is computed before the [try]; write errors
    are logged. A newly created file sits in a directory the process could
    write, so it can be unlinked; an overwritten one keeps its status. *)
Definition set (fs : docs) (st : store) (now : Z) (w : write_result)
    (pdf_path : path) (search_names : list text) (threshold : Z)
    (results : list SearchResult) : outcome unit * store :=
  match fs pdf_path with
  | None => (Raised, st)
  | Some bytes =>
      let k := cache_key bytes search_names threshold in
      let can_unlink := match st k with Some f => unlinkable f | None => true end in
      match w with
      | WriteOk =>
          (Returned tt,
           upd st k (Some (MkFile now (JsonEntry (Some CACHE_VERSION) (Some results)) can_unlink)))
      | OpenFails => (Returned tt, st)
      | DumpFails => (Returned tt, upd st k (Some (MkFile now Unparsable can_unlink)))
      end
  end.

End ResultCache.

Arguments Returned {A} a.
Arguments Raised {A}.

End Cache.

(** ** Parallel orchestration ([parallel.py], and [cli.py]'s loop) *)
Module Parallel.
Import Text.

Section Orchestrator.

Variable path : Type.
Variable SearchResult : Type.
(** [pdf_path.name] *)
Variable name_of : path -> text.

Record ProcessingStats := MkStats {
  files_processed : nat;
  files_failed : nat;
  pages_processed : nat;
  matches_found : nat;
  errors : list text }.

(** What [future.result()] gives for one document: its results, or the
    exception raised in the worker (with [str(e)]). Each worker runs in
    its own process and works on its own copy of any [stats] object. *)
Inductive doc_outcome :=
| Succeeded (results : list SearchResult)
| Failed (msg : text).

Definition err_line (p : path) (msg : text) : text := name_of p ++ [58; 32]%N ++ msg.

(** The loop [for future in as_completed(future_to_pdf)] of
    [process_pdfs_parallel]; [order] is the completion order. *)
Fixpoint collect_parallel (outcome : path -> doc_outcome) (order : list path)
    (all_results : list SearchResult) (stats : option ProcessingStats)
  : list SearchResult * option ProcessingStats :=
  match order with
  | [] => (all_results, stats)
  | p :: rest =>
      match outcome p with
      | Succeeded results => collect_parallel outcome rest (all_results ++ results) stats
      | Failed msg =>
          let stats' :=
            match stats with
            | Some st => Some (MkStats (files_processed st) (S (files_failed st))
                                       (pages_processed st) (matches_found st)
                                       (errors st ++ [err_line p msg]))
            | None => None
            end in
          collect_parallel outcome rest all_results stats'
      end
  end.

(** [process_pdfs_parallel(pdf_files, process_func, max_workers, stats)];
    [order] is the order in which [as_completed] yields the submitted
    documents (a permutation of [pdf_files]). *)
Definition process_pdfs_parallel (pdf_files : list path) (outcome : path -> doc_outcome)
    (order : list path) (stats : option ProcessingStats)
  : list SearchResult * option ProcessingStats :=
  match pdf_files with
  | [] => ([], stats)
  | _ => collect_parallel outcome order [] stats
  end.

(** The same loop in [cli._process_parallel]. *)
Fixpoint collect_cli (outcome : path -> doc_outcome) (order : list path)
    (all_results : list SearchResult) (stats : ProcessingStats)
  : list SearchResult * ProcessingStats :=
  match order with
  | [] => (all_results, stats)
  | p :: rest =>
      match outcome p with
      | Succeeded results =>
          collect_cli outcome rest (all_results ++ results)
            (MkStats (S (files_processed stats)) (files_failed stats) (pages_processed stats)
                     (matches_found stats + length results) (errors stats))
      | Failed msg =>
          collect_cli outcome rest all_results
            (MkStats (files_processed stats) (S (files_failed stats)) (pages_processed stats)
                     (matches_found stats) (errors stats ++ [err_line p msg]))
      end
  end.

End Orchestrator.

End Parallel.

(** ** Concrete inputs *)
Module Samples.
Import Text Extract.

(** ["রহিম"] *)
Definition rahim : text := [2480; 2489; 2495; 2478]%N.
(** ["করিম"] *)
Definition karim : text := [2453; 2480; 2495; 2478]%N.
(** ["আলী"] *)
Definition ali : text := [2438; 2482; 2496]%N.
(** ["রহিম আলী"] and ["আলী রহিম"] *)
Definition rahim_ali : text := rahim ++ [space] ++ ali.
Definition ali_rahim : text := ali ++ [space] ++ rahim.
(** ["রহিমা"] *)
Definition rahima : text := rahim ++ [BN_AA].

(** ["<label> : <value>\n"] *)
Definition field_line (label value : text) : text :=
  label ++ [space; COLON; space] ++ value ++ [newline].

(** Two OCR words: ["রহিম"] and ["রহিমা"]. *)
Definition word_rahim : Boxes.OCRWord := Boxes.MkWord rahim 90 (MkBBox 10 10 40 20).
Definition word_rahima : Boxes.OCRWord := Boxes.MkWord rahima 85 (MkBBox 60 10 50 20).

(** Stand-ins for [hashlib], [str.encode] and [str(int)] on concrete runs,
    and a document store where every path holds the bytes ["%PDF"]. *)
Definition toy_hex (bytes : list N) : text := bytes.
Definition toy_encode (s : text) : list N := s.
Definition toy_str (z : Z) : text := [Z.to_N z].
Definition pdf_bytes : list N := [37; 80; 68; 70]%N.
Definition same_bytes_docs : Cache.docs := fun _ => Some pdf_bytes.
Definition empty_store : Cache.store nat := fun _ => None.
(** [ResultCache(ttl_days=30)] *)
Definition default_cache : Cache.ResultCache := Cache.MkCache (30 * 86400).

End Samples.

(** ** Worker count ([parallel.get_optimal_workers]) *)
Module Workers.

(** [get_optimal_workers(max_workers)] with [mp.cpu_count() = cpu]. *)
Definition get_optimal_workers (max_workers : option Z) (cpu : Z) : Z :=
  match max_workers with
  | Some w => Z.max 1 (Z.min w cpu)
  | None => Z.max 1 (cpu - 1)
  end.

End Workers.

(** ** Cache maintenance ([ResultCache.clear], [ResultCache.clear_expired]) *)
Module CacheAdmin.
Import Text Cache.

Section Admin.
Variable SR : Type.

(** The loop of [clear] over [self.cache_dir.glob("*.json")] (listed in
    [files]); an [unlink] that raises ends the loop in the [except], which
    returns the count so far. *)
Fixpoint clear_loop (st : store SR) (files : list key) (count : nat) : store SR * nat :=
  match files with
  | [] => (st, count)
  | k :: rest =>
      match st k with
      | Some f =>
          if unlinkable SR f then clear_loop (upd SR st k None) rest (S count)
          else (st, count)
      | None => (st, count)
      end
  end.

(** [ResultCache.clear()] *)
Definition clear (st : store SR) (files : list key) : store SR * nat :=
  clear_loop st files 0.

(** The loop of [clear_expired]: [stat] (raises on a vanished file), and
    [unlink] when [now - cache_mtime > self.ttl]. *)
Fixpoint clear_expired_loop (self : ResultCache) (now : Z) (st : store SR)
    (files : list key) (count : nat) : store SR * nat :=
  match files with
  | [] => (st, count)
  | k :: rest =>
      match st k with
      | Some f =>
          if (now - mtime SR f >? ttl self)%Z then
            if unlinkable SR f then
              clear_expired_loop self now (upd SR st k None) rest (S count)
            else (st, count)
          else clear_expired_loop self now st rest count
      | None => (st, count)
      end
  end.

(** [ResultCache.clear_expired()] *)
Definition clear_expired (self : ResultCache) (now : Z) (st : store SR) (files : list key)
  : store SR * nat :=
  clear_expired_loop self now st files 0.

(** Whether the entry [k] is listed as expired by [clear_expired]:
    [now - cache_mtime > self.ttl]. *)
Definition expired_at (self : ResultCache) (now : Z) (st : store SR) (k : key) : bool :=
  match st k with
  | Some f => (now - mtime SR f >? ttl self)%Z
  | None => false
  end.

End Admin.

End CacheAdmin.

(** A cache directory with two entries: [old.json], written at time 0,
    and [new.json], written 40 days later. *)
Module AdminSamples.
Import Cache Samples.

Definition key_old : key := [111; 108; 100]%N.
Definition key_new : key := [110; 101; 119]%N.
Definition entry_old : cache_file nat := MkFile nat 0 (Unreadable nat) true.
Definition entry_new : cache_file nat := MkFile nat (40 * 86400) (Unreadable nat) true.
Definition admin_store : store nat :=
  upd nat (upd nat empty_store key_old (Some entry_old)) key_new (Some entry_new).
Definition admin_files : list key := [key_old; key_new].

End AdminSamples.


(** * validation.py *)
Module Validation.
Import Text.

(** What [pdf_path] names on disk: nothing ([exists()] is false), an
    entry that is not a regular file ([is_file()] is false), or a regular
    file with its bytes and whether [open(pdf_path, 'rb')] succeeds. *)
Inductive fs_entry : Type :=
| Missing
| NotRegular
| RegFile (readable : bool) (data : list N).

(** How [validate_pdf_file] ends: it returns, raises [ValueError], or
    lets the [OSError] of [open] escape. *)
Inductive vresult : Type := VOk | VValueError | VOSError.

(** [b'%PDF-'] *)
Definition PDF_MAGIC : list N := [37; 80; 68; 70; 45]%N.

(** [validate_pdf_file(pdf_path)] with [MAX_PDF_SIZE_MB] given (50 by
    default, [int] from the environment). [st_size / (1024 * 1024)] divides
    by a power of two, so the float quotient is exact and is taken in [Q];
    [f.read(5)] returns the first (at most) five bytes. *)
Definition validate_pdf_file (MAX_PDF_SIZE_MB : Z) (e : fs_entry) : vresult :=
  match e with
  | Missing => VValueError
  | NotRegular => VValueError
  | RegFile readable data =>
      let size_mb := (inject_Z (Z.of_nat (length data)) / inject_Z (1024 * 1024))%Q in
      if Qle_bool size_mb (inject_Z MAX_PDF_SIZE_MB) then
        if readable then
          let header := firstn 5 data in
          if text_eqb header PDF_MAGIC then VOk else VValueError
        else VOSError
      else VValueError
  end.

(** [str.startswith] *)
Fixpoint startswith (s prefix : text) : bool :=
  match prefix, s with
  | [], _ => true
  | p :: prefix', c :: s' => (p =? c)%N && startswith s' prefix'
  | _ :: _, [] => false
  end.

Section PathSecurity.
(** [str(Path(p).resolve())], or [None] when resolving raises. *)
Variable resolve : text -> option text.

(** [validate_path_security(path, base_dir)]: [Some] of the resolved path,
    or [None] for the [ValueError] every failure is turned into. The base
    check runs only when [base_dir] is truthy (given and non-empty). *)
Definition validate_path_security (path : text) (base_dir : option text) : option text :=
  match resolve path with
  | None => None
  | Some resolved_path =>
      match base_dir with
      | None | Some [] => Some resolved_path
      | Some b =>
          match resolve b with
          | None => None
          | Some base_resolved =>
              if startswith resolved_path base_resolved then Some resolved_path else None
          end
      end
  end.
End PathSecurity.

End Validation.


(** * export.py *)
Module Exports.
Import Text Extract.

(** A [SearchResult] dict as [process_pdf] builds it: [file], [page],
    [name], [father] always; [bbox] and [confidence] are [NotRequired]
    keys: the outer [option] says whether the key is present, the inner
    one whether its value is [None]. *)
Record SearchResult := MkResult {
  r_file : text;
  r_page : Z;
  r_name : text;
  r_father : text;
  r_bbox : option (option BoundingBox);
  r_confidence : option (option Q) }.

(** The CSV column names used by [export_to_csv]. *)
Inductive field : Type :=
| F_file | F_page | F_name | F_father
| F_bbox_left | F_bbox_top | F_bbox_width | F_bbox_height
| F_confidence.

Definition field_eqb (a b : field) : bool :=
  match a, b with
  | F_file, F_file | F_page, F_page | F_name, F_name | F_father, F_father
  | F_bbox_left, F_bbox_left | F_bbox_top, F_bbox_top
  | F_bbox_width, F_bbox_width | F_bbox_height, F_bbox_height
  | F_confidence, F_confidence => true
  | _, _ => false
  end.

(** A value put in a row dict: a string, an int, or
    [f"{confidence:.2f}"] of a float. *)
Inductive cell : Type :=
| CStr (s : text)
| CInt (z : Z)
| CFixed2 (q : Q).

(** What [csv.DictWriter] writes: [writeheader()] or [writerow(row)]. *)
Inductive csv_line : Type :=
| Header (fieldnames : list field)
| Row (cells : list cell).

(** [row.get(key, "")] *)
Fixpoint row_get (row : list (field * cell)) (k : field) : cell :=
  match row with
  | [] => CStr []
  | (k', v) :: rest => if field_eqb k' k then v else row_get rest k
  end.

(** Whether the file's strict UTF-8 encoder accepts a string: a Python
    [str] holds code points up to U+10FFFF, and encoding raises
    [UnicodeEncodeError] exactly on the lone surrogates U+D800..U+DFFF
    (which [os.fsdecode] puts in the name of a file whose name is not
    valid UTF-8). *)
Definition utf8_encodable (s : text) : bool :=
  forallb (fun c => negb ((55296 <=? c) && (c <=? 57343))%N) s.

(** Numbers are formatted in ASCII; a string cell is written as is. *)
Definition cell_encodable (c : cell) : bool :=
  match c with
  | CStr s => utf8_encodable s
  | _ => true
  end.

(** [writer.writerow(row)]: [DictWriter] raises [ValueError] for a key
    missing from [fieldnames]; otherwise the line of the values in
    [fieldnames] order goes to one [f.write], which encodes it before
    writing anything and raises when a string cannot be encoded. *)
Definition writerow (fieldnames : list field) (row : list (field * cell)) : option csv_line :=
  if forallb (fun kv => existsb (field_eqb (fst kv)) fieldnames) row
  then
    let cells := map (row_get row) fieldnames in
    if forallb cell_encodable cells then Some (Row cells) else None
  else None.

Definition has_key {A} (o : option A) : bool := match o with Some _ => true | None => false end.

(** The row dict for one result, or [None] when building it raises
    ([f"{None:.2f}"] raises [TypeError]). *)
Definition make_row (has_bbox has_confidence : bool) (result : SearchResult)
  : option (list (field * cell)) :=
  let row := [(F_file, CStr (r_file result)); (F_page, CInt (r_page result));
              (F_name, CStr (r_name result)); (F_father, CStr (r_father result))] in
  let row :=
    if has_bbox then
      match r_bbox result with
      | Some (Some bbox) =>
          row ++ [(F_bbox_left, CInt (left bbox)); (F_bbox_top, CInt (top bbox));
                  (F_bbox_width, CInt (width bbox)); (F_bbox_height, CInt (height bbox))]
      | _ =>
          row ++ [(F_bbox_left, CStr []); (F_bbox_top, CStr []);
                  (F_bbox_width, CStr []); (F_bbox_height, CStr [])]
      end
    else row in
  if has_confidence then
    match r_confidence result with
    | Some (Some c) => Some (row ++ [(F_confidence, CFixed2 c)])
    | Some None => None
    | None => Some (row ++ [(F_confidence, CStr [])])
    end
  else Some row.

(** The [for result in results] loop: the lines written, and whether it
    ran to the end (the first exception leaves the lines written so far
    in the file and is turned into [OSError]). *)
Fixpoint write_rows (fieldnames : list field) (has_bbox has_confidence : bool)
    (results : list SearchResult) : list csv_line * bool :=
  match results with
  | [] => ([], true)
  | result :: rest =>
      match make_row has_bbox has_confidence result with
      | None => ([], false)
      | Some row =>
          match writerow fieldnames row with
          | None => ([], false)
          | Some line =>
              let '(lines, ok) := write_rows fieldnames has_bbox has_confidence rest in
              (line :: lines, ok)
          end
      end
  end.

(** [export_to_csv(results, output_path)]: the lines in the file, and
    whether it returned ([false]: it raised [OSError]). [openable] says
    whether [open(output_path, "w")] succeeds. *)
Definition export_to_csv (openable : bool) (results : list SearchResult) : list csv_line * bool :=
  if negb openable then ([], false) else
  match results with
  | [] => ([Header [F_file; F_page; F_name; F_father]], true)
  | _ =>
      let has_bbox := existsb (fun r => has_key (r_bbox r)) results in
      let has_confidence := existsb (fun r => has_key (r_confidence r)) results in
      let fieldnames := [F_file; F_page; F_name; F_father] ++
        (if has_bbox then [F_bbox_left; F_bbox_top; F_bbox_width; F_bbox_height] else []) ++
        (if has_confidence then [F_confidence] else []) in
      let '(lines, ok) := write_rows fieldnames has_bbox has_confidence results in
      (Header fieldnames :: lines, ok)
  end.

(** [str.rfind(".")]: the index of the last ['.'], [None] for [-1]. *)
Fixpoint rfind_dot (s : text) : option nat :=
  match s with
  | [] => None
  | c :: rest =>
      match rfind_dot rest with
      | Some i => Some (S i)
      | None => if (c =? 46)%N then Some 0 else None
      end
  end.

(** [PurePath.suffix] of the final component [name] (Python 3.12):
    [name[i:]] when [0 < i < len(name) - 1] for [i = name.rfind('.')],
    [''] otherwise. *)
Definition suffix (name : text) : text :=
  match rfind_dot name with
  | Some i => if (0 <? i) && (i <? length name - 1) then skipn i name else []
  | None => []
  end.

(** [str.lower()] on ASCII letters. The result is only compared with
    [".json"] and [".csv"]; no non-ASCII character lowers to one of their
    characters, so the comparison is the same as with the full Unicode
    mapping. *)
Definition lower (s : text) : text :=
  map (fun c => if ((65 <=? c) && (c <=? 90))%N then (c + 32)%N else c) s.

Definition s_auto : text := [97; 117; 116; 111]%N.   (* "auto" *)
Definition s_json : text := [106; 115; 111; 110]%N.  (* "json" *)
Definition s_csv : text := [99; 115; 118]%N.         (* "csv" *)
Definition s_dot_json : text := [46; 106; 115; 111; 110]%N.  (* ".json" *)
Definition s_dot_csv : text := [46; 99; 115; 118]%N.         (* ".csv" *)

(** How [export_results] ends: [ValueError] before any file is opened,
    or the export it dispatched to, with the JSON export's success flag
    or the CSV export's lines and success flag. *)
Inductive export_outcome : Type :=
| ExportValueError
| ExportedJson (ok : bool)
| ExportedCsv (lines : list csv_line) (ok : bool).

(** The strings of a result: [file], [name] and [father]. *)
Definition result_encodable (r : SearchResult) : bool :=
  utf8_encodable (r_file r) && utf8_encodable (r_name r) && utf8_encodable (r_father r).

(** [export_to_json]: [json.dump(..., ensure_ascii=False)] writes the
    strings unescaped, so the strict UTF-8 file raises on a string it
    cannot encode; nothing else in these dicts makes it raise. It succeeds
    exactly when the file opens and every string can be encoded. *)
Definition export_to_json (openable : bool) (results : list SearchResult) : bool :=
  openable && forallb result_encodable results.

(** [export_results(results, output_path, format)], with the final path
    component [name] of [output_path]. *)
Definition export_results (results : list SearchResult) (name : text) (openable : bool)
    (format : text) : export_outcome :=
  let format :=
    if text_eqb format s_auto then
      let sfx := lower (suffix name) in
      if text_eqb sfx s_dot_json then Some s_json
      else if text_eqb sfx s_dot_csv then Some s_csv
      else None
    else Some format in
  match format with
  | None => ExportValueError
  | Some format =>
      if text_eqb format s_json then ExportedJson (export_to_json openable results)
      else if text_eqb format s_csv then
        let '(lines, ok) := export_to_csv openable results in ExportedCsv lines ok
      else ExportValueError
  end.

(** The [fieldnames] list [export_to_csv] builds from [has_bbox] and
    [has_confidence]. *)
Definition csv_fieldnames (hb hc : bool) : list field :=
  [F_file; F_page; F_name; F_father] ++
  (if hb then [F_bbox_left; F_bbox_top; F_bbox_width; F_bbox_height] else []) ++
  (if hc then [F_confidence] else []).

(** A result whose row can be built: it has no [confidence] key set to
    [None] when the confidence column is present. *)
Definition conf_ok (hc : bool) (r : SearchResult) : Prop := ~ (hc = true /\ r_confidence r = Some None).

End Exports.


(** * ocr.py *)
Module Ocr.
Import Text Extract Fuzz Match Boxes Exports Parallel.

(** Literal messages of the source. *)
Module Messages.
Import Strings.String.
Open Scope string_scope.
Definition of_string (s : string) : text :=
  List.map (fun a => N.of_nat (Ascii.nat_of_ascii a)) (list_ascii_of_string s).
Definition tesseract_not_found : text :=
  of_string "Tesseract not found. Install: apt-get install tesseract-ocr tesseract-ocr-ben".
Definition ocr_extraction_failed : text := of_string "OCR extraction failed: ".
End Messages.

(** One entry of the [Output.DICT] of [pytesseract.image_to_data], with
    [float(conf)] and the [int(...)] coordinates already taken. *)
Record tess_row := MkRow {
  t_text : text; t_conf : Q; t_left : Z; t_top : Z; t_width : Z; t_height : Z }.

(** What a [pytesseract] call raises: [TesseractNotFoundError], a
    [RuntimeError] (its timeout, or [TesseractError], a subclass), or any
    other exception; with [str(e)]. *)
Inductive tess_error : Type :=
| TesseractNotFound
| TessRuntimeError (msg : text)
| TessOtherError (msg : text).

Definition tess_msg (e : tess_error) : text :=
  match e with
  | TesseractNotFound => []
  | TessRuntimeError m | TessOtherError m => m
  end.

(** The loop body of [extract_ocr_data] for entry [i]: skipped when the
    stripped text is empty or [conf < min_confidence]. *)
Definition keep_row (min_confidence : Q) (r : tess_row) : option OCRWord :=
  let s := strip (t_text r) in
  if is_nil s || negb (Qle_bool min_confidence (t_conf r)) then None
  else Some (MkWord s (t_conf r) (MkBBox (t_left r) (t_top r) (t_width r) (t_height r))).

Fixpoint keep_rows (min_confidence : Q) (rows : list tess_row) : list OCRWord :=
  match rows with
  | [] => []
  | r :: rest =>
      match keep_row min_confidence r with
      | Some w => w :: keep_rows min_confidence rest
      | None => keep_rows min_confidence rest
      end
  end.

(** [extract_ocr_data(image, min_confidence)] given what
    [image_to_data] does: the words, or the message of the [RuntimeError]
    it raises. *)
Definition extract_ocr_data (data : list tess_row + tess_error) (min_confidence : Q)
  : list OCRWord + text :=
  match data with
  | inl rows => inl (keep_rows min_confidence rows)
  | inr TesseractNotFound => inr Messages.tesseract_not_found
  | inr e => inr (Messages.ocr_extraction_failed ++ tess_msg e)
  end.

(** [get_text_bounding_box(ocr_words)] *)
Definition get_text_bounding_box (ws : list OCRWord) : option BoundingBox :=
  match ws with
  | [] => None
  | w0 :: _ =>
      let lefts := map (fun w => left (w_bbox w)) ws in
      let tops := map (fun w => top (w_bbox w)) ws in
      let rights := map (fun w => left (w_bbox w) + width (w_bbox w))%Z ws in
      let bottoms := map (fun w => top (w_bbox w) + height (w_bbox w))%Z ws in
      let min_left := fold_left Z.min lefts (left (w_bbox w0)) in
      let min_top := fold_left Z.min tops (top (w_bbox w0)) in
      let max_right := fold_left Z.max rights (left (w_bbox w0) + width (w_bbox w0))%Z in
      let max_bottom := fold_left Z.max bottoms (top (w_bbox w0) + height (w_bbox w0))%Z in
      Some (MkBBox min_left min_top (max_right - min_left) (max_bottom - min_top))
  end.

(** What [convert_from_path] does with the document. *)
Inductive conversion : Type :=
| Converted (n_images : nat)
| PDFPageCountError
| PDFSyntaxError
| ConvertOtherError (msg : text).

(** [images[:m]] for an [int] [m] (negative: all but the last [-m]). *)
Definition py_take {A} (m : Z) (l : list A) : list A :=
  if (0 <=? m)%Z then firstn (Z.to_nat m) l
  else firstn (Z.to_nat (Z.of_nat (length l) + m)) l.

(** How the [try] around one page ends. *)
Inductive page_result : Type :=
| PageOk (results : list SearchResult)
| PageSkipped
| PageRaised (msg : text).

(** Why [process_pdf] counts a document as failed; [error_line] below is
    the line it appends to [stats.errors] for it. *)
Inductive pdf_failure : Type :=
| InvalidPdf                 (* [ValueError] of [validate_pdf_file] *)
| OpenFailed                 (* the [OSError] of [open] in [validate_pdf_file] *)
| PageCountFailed            (* [PDFPageCountError] *)
| SyntaxFailed               (* [PDFSyntaxError] *)
| ConvertFailed (msg : text)
| PageFailed (msg : text).   (* a [RuntimeError] out of the page loop *)

(** How [process_pdf] ends: it returns its results or raises
    ([ValueError] or [RuntimeError]). *)
Inductive pdf_outcome : Type :=
| PdfReturned (results : list SearchResult)
| PdfRaised.

Section ProcessPdf.
(** A page image, and what the two [pytesseract] calls do on it. *)
Variable image : Type.
Variable image_to_string : image -> text + tess_error.
Variable image_to_data : image -> list tess_row + tess_error.
(** [convert_from_path]: the page images of the document (by index). *)
Variable page_image : nat -> image.
(** ["timeout" in str(e).lower()] *)
Variable mentions_timeout : text -> bool.
(** The line appended to [stats.errors] for a failed document. *)
Variable error_line : pdf_failure -> text.

(** The matches of one page: for each voter, for each query. *)
Definition page_matches (file : text) (page_no : Z) (search_names : list text)
    (threshold : Z) (mk : VoterInfo -> SearchResult) (voters : list VoterInfo)
  : list SearchResult :=
  flat_map (fun voter =>
    flat_map (fun query =>
      if fuzzy_match (name voter) query threshold then [mk voter] else []) search_names)
    voters.

(** The body of the page loop. *)
Definition process_page (file : text) (search_names : list text) (threshold : Z)
    (box_level : bool) (min_confidence : Q) (page_no : Z) (img : image) : page_result :=
  if box_level then
    match extract_ocr_data (image_to_data img) min_confidence with
    | inl ocr_words =>
        let s := join [32%N] (map w_text ocr_words) in
        let voters := extract_voter_blocks_with_boxes s ocr_words in
        PageOk (page_matches file page_no search_names threshold
                  (fun v => MkResult file page_no (name v) (father v)
                              (Some (name_bbox v)) (Some (confidence v))) voters)
    | inr msg => if mentions_timeout msg then PageSkipped else PageRaised msg
    end
  else
    match image_to_string img with
    | inl s =>
        let voters := extract_voter_blocks s in
        PageOk (page_matches file page_no search_names threshold
                  (fun v => MkResult file page_no (name v) (father v) None None) voters)
    | inr TesseractNotFound => PageRaised Messages.tesseract_not_found
    | inr (TessRuntimeError msg) => if mentions_timeout msg then PageSkipped else PageRaised msg
    | inr (TessOtherError _) => PageSkipped
    end.

Definition bump_page (st : ProcessingStats) (n : nat) : ProcessingStats :=
  MkStats (files_processed st) (files_failed st) (S (pages_processed st))
          (matches_found st + n) (errors st).

(** [for page_no, image in enumerate(images, start=1)]: the results so
    far and the stats, or the message of the [RuntimeError] that leaves
    the loop (with the stats as they were then). *)
Fixpoint page_loop (file : text) (search_names : list text) (threshold : Z)
    (box_level : bool) (min_confidence : Q) (page_no : Z) (images : list image)
    (results : list SearchResult) (st : ProcessingStats)
  : (list SearchResult + text) * ProcessingStats :=
  match images with
  | [] => (inl results, st)
  | img :: rest =>
      match process_page file search_names threshold box_level min_confidence page_no img with
      | PageOk rs =>
          page_loop file search_names threshold box_level min_confidence (page_no + 1) rest
            (results ++ rs) (bump_page st (length rs))
      | PageSkipped =>
          page_loop file search_names threshold box_level min_confidence (page_no + 1) rest
            results st
      | PageRaised msg => (inr msg, st)
      end
  end.

Definition fail (st : ProcessingStats) (why : pdf_failure) : ProcessingStats :=
  MkStats (files_processed st) (S (files_failed st)) (pages_processed st)
          (matches_found st) (errors st ++ [error_line why]).

(** [process_pdf(pdf_path, search_names, threshold, stats, box_level,
    min_confidence)] with [MAX_PDF_SIZE_MB] and [MAX_PDF_PAGES] given,
    [entry] what [pdf_path] names on disk and [conv] what
    [convert_from_path] does; [file] is [pdf_path.name]. *)
Definition process_pdf (MAX_PDF_SIZE_MB MAX_PDF_PAGES : Z) (entry : Validation.fs_entry)
    (conv : conversion) (file : text) (search_names : list text) (threshold : Z)
    (st : ProcessingStats) (box_level : bool) (min_confidence : Q)
  : pdf_outcome * ProcessingStats :=
  match Validation.validate_pdf_file MAX_PDF_SIZE_MB entry with
  | Validation.VValueError => (PdfRaised, fail st InvalidPdf)
  | Validation.VOSError => (PdfReturned [], fail st OpenFailed)
  | Validation.VOk =>
      match conv with
      | PDFPageCountError => (PdfRaised, fail st PageCountFailed)
      | PDFSyntaxError => (PdfRaised, fail st SyntaxFailed)
      | ConvertOtherError msg => (PdfRaised, fail st (ConvertFailed msg))
      | Converted n =>
          let images := map page_image (seq 0 n) in
          let images :=
            if (Z.of_nat (length images) >? MAX_PDF_PAGES)%Z then py_take MAX_PDF_PAGES images
            else images in
          match page_loop file search_names threshold box_level min_confidence 1 images [] st with
          | (inl results, st') =>
              (PdfReturned results,
               MkStats (S (files_processed st')) (files_failed st') (pages_processed st')
                       (matches_found st') (errors st'))
          | (inr msg, st') => (PdfRaised, fail st' (PageFailed msg))
          end
      end
  end.

End ProcessPdf.

End Ocr.


(** * cli.py: loading the names and the sequential loop *)
Module Cli.
Import Text Fuzz Exports Parallel Ocr.



Section Sequential.
(** The cache's hashing primitives (see [Cache]). *)
Variable sha256_hex : list N -> text.
Variable encode : text -> list N.
Variable str_int : Z -> text.
(** The OCR primitives (see [Ocr.process_pdf]). *)
Variable image : Type.
Variable image_to_string : image -> text + tess_error.
Variable image_to_data : image -> list tess_row + tess_error.
Variable mentions_timeout : text -> bool.
Variable MAX_PDF_SIZE_MB MAX_PDF_PAGES : Z.
(** Per document path: [pdf_path.name], what it names on disk, what
    [convert_from_path] does with it, its page images and the error line
    [process_pdf] appends for it. *)
Variable name_of : text -> text.
Variable doc_entry : text -> Validation.fs_entry.
Variable doc_conv : text -> conversion.
Variable doc_page : text -> nat -> image.
Variable doc_error_line : text -> pdf_failure -> text.
(** The bytes [_compute_file_hash] reads ([None]: reading raises). *)
Variable fs : Cache.docs.
(** [datetime.now()] in [cache.get] and in [cache.set], and how the
    write of [cache.set] goes, per document. *)
Variable clock_get clock_set : text -> Z.
Variable write : text -> Cache.write_result.

Definition run_pdf (pdf_path : text) (search_names : list text) (threshold : Z)
    (stats : ProcessingStats) (box_level : bool) (min_confidence : Q)
  : pdf_outcome * ProcessingStats :=
  process_pdf image image_to_string image_to_data (doc_page pdf_path) mentions_timeout
    (doc_error_line pdf_path) MAX_PDF_SIZE_MB MAX_PDF_PAGES (doc_entry pdf_path)
    (doc_conv pdf_path) (name_of pdf_path) search_names threshold stats box_level min_confidence.

Definition files_processed_inc (st : ProcessingStats) : ProcessingStats :=
  MkStats (S (files_processed st)) (files_failed st) (pages_processed st)
          (matches_found st) (errors st).

(** The [for pdf_path in pdf_files] loop of [_process_sequential]; a
    [ResultCache] object is always truthy, so [if cache] tests [cache is
    not None]. Every exception ends in one of the two [except] clauses,
    which only log. *)
Fixpoint sequential_loop (cache : option Cache.ResultCache) (pdf_files : list text)
    (search_names : list text) (threshold : Z) (box_level : bool) (min_confidence : Q)
    (all_results : list SearchResult) (stats : ProcessingStats)
    (store : Cache.store SearchResult)
  : list SearchResult * ProcessingStats * Cache.store SearchResult :=
  match pdf_files with
  | [] => (all_results, stats, store)
  | pdf_path :: rest =>
      let go := sequential_loop cache rest search_names threshold box_level min_confidence in
      let process store :=
        match run_pdf pdf_path search_names threshold stats box_level min_confidence with
        | (PdfRaised, stats') => go all_results stats' store
        | (PdfReturned results, stats') =>
            match cache with
            | Some _ =>
                let '(_, store') :=
                  Cache.set sha256_hex encode str_int SearchResult fs store (clock_set pdf_path)
                    (write pdf_path) pdf_path search_names threshold results in
                go (all_results ++ results) stats' store'
            | None => go (all_results ++ results) stats' store
            end
        end in
      match cache with
      | Some c =>
          match Cache.get sha256_hex encode str_int SearchResult c fs store (clock_get pdf_path)
                  pdf_path search_names threshold with
          | (Cache.Raised, store1) => go all_results stats store1
          | (Cache.Returned (Some cached), store1) =>
              go (all_results ++ cached) (files_processed_inc stats) store1
          | (Cache.Returned None, store1) => process store1
          end
      | None => process store
      end
  end.

(** [_process_sequential(pdf_files, search_names, threshold, stats,
    cache, box_level, min_confidence)], with the cache directory's
    contents threaded through. *)
Definition process_sequential (pdf_files : list text) (search_names : list text) (threshold : Z)
    (stats : ProcessingStats) (cache : option Cache.ResultCache) (box_level : bool)
    (min_confidence : Q) (store : Cache.store SearchResult)
  : list SearchResult * ProcessingStats * Cache.store SearchResult :=
  sequential_loop cache pdf_files search_names threshold box_level min_confidence [] stats store.

(** [str(e)] of the exception a worker raises for a document. *)
Variable exc_msg : text -> text.

(** [_process_pdf_worker(args)]: [cache] is the [ResultCache] it builds
    when [use_cache] is set (its directory already exists), [None]
    otherwise. [process_pdf] gets a fresh [ProcessingStats()], which is
    dropped afterwards. An exception leaves the worker; it reaches
    [future.result()] as [Failed] with its message. *)
Definition process_pdf_worker (pdf_path : text) (search_names : list text) (threshold : Z)
    (cache : option Cache.ResultCache) (box_level : bool) (min_confidence : Q)
    (store : Cache.store SearchResult)
  : doc_outcome SearchResult * Cache.store SearchResult :=
  let process store :=
    match run_pdf pdf_path search_names threshold (MkStats 0 0 0 0 []) box_level min_confidence with
    | (PdfRaised, _) => (Failed SearchResult (exc_msg pdf_path), store)
    | (PdfReturned results, _) =>
        match cache with
        | Some _ =>
            match Cache.set sha256_hex encode str_int SearchResult fs store (clock_set pdf_path)
                    (write pdf_path) pdf_path search_names threshold results with
            | (Cache.Raised, store') => (Failed SearchResult (exc_msg pdf_path), store')
            | (Cache.Returned _, store') => (Succeeded SearchResult results, store')
            end
        | None => (Succeeded SearchResult results, store)
        end
    end in
  match cache with
  | Some c =>
      match Cache.get sha256_hex encode str_int SearchResult c fs store (clock_get pdf_path)
              pdf_path search_names threshold with
      | (Cache.Raised, store1) => (Failed SearchResult (exc_msg pdf_path), store1)
      | (Cache.Returned (Some cached_results), store1) => (Succeeded SearchResult cached_results, store1)
      | (Cache.Returned None, store1) => process store1
      end
  | None => process store
  end.

End Sequential.

End Cli.

(** A cache in which every entry holds one fresh, valid result list. *)
Module CliSamples.

Definition cached_store : Cache.store Exports.SearchResult :=
  fun _ => Some (Cache.MkFile Exports.SearchResult 0
                   (Cache.JsonEntry Exports.SearchResult (Some Cache.CACHE_VERSION)
                      (Some [Exports.MkResult [49%N] 1 Samples.rahim Samples.karim None None]))
                   true).

End CliSamples.

(** * Lemmas about the string primitives *)
Module TextFacts.
Import Text.

Lemma lstrip_suffix (s : text) : exists p, s = p ++ lstrip s.
Proof.
  induction s as [|c r IH]; simpl.
  - exists []. reflexivity.
  - destruct (isspace c).
    + destruct IH as [p Hp]. exists (c :: p). simpl. f_equal. exact Hp.
    + exists []. reflexivity.
Qed.

Lemma lstrip_length (s : text) : length (lstrip s) <= length s.
Proof.
  destruct (lstrip_suffix s) as [p Hp].
  rewrite Hp at 2. rewrite length_app. lia.
Qed.

Lemma lstrip_in (s : text) (c : N) : In c (lstrip s) -> In c s.
Proof.
  destruct (lstrip_suffix s) as [p Hp]. intro H.
  rewrite Hp. apply in_or_app. right. exact H.
Qed.

Lemma strip_length (s : text) : length (strip s) <= length s.
Proof.
  unfold strip. rewrite length_rev.
  pose proof (lstrip_length (rev (lstrip s))).
  rewrite length_rev in H. pose proof (lstrip_length s). lia.
Qed.

Lemma strip_in (s : text) (c : N) : In c (strip s) -> In c s.
Proof.
  unfold strip. intro H.
  apply in_rev in H. apply lstrip_in in H. apply in_rev in H.
  apply lstrip_in in H. exact H.
Qed.

Lemma mem_In (c : N) (l : text) : mem c l = true <-> In c l.
Proof.
  induction l as [|d r IH]; simpl.
  - split; [discriminate | contradiction].
  - rewrite orb_true_iff, N.eqb_eq, IH. split; intros [H|H]; auto.
Qed.

End TextFacts.

Module ExtractFacts.
Import Text Regex Extract.

Lemma search_from_leftmost (prog : list op) (s : text) :
  forall fuel pos mo,
  search_from prog s pos fuel = Some mo ->
  pos <= m_start mo /\
  run prog s (m_start mo) [] = Some (m_end mo, m_marks mo) /\
  forall p, pos <= p < m_start mo -> run prog s p [] = None.
Proof.
  induction fuel as [|f IH]; intros pos mo H; simpl in H; [discriminate|].
  destruct (run prog s pos []) as [[e m]|] eqn:Hr.
  - injection H as <-. simpl. split; [lia|]. split; [exact Hr|]. intros p Hp; lia.
  - destruct (IH (S pos) mo H) as [Hle [Hrun Hnone]].
    split; [lia|]. split; [exact Hrun|].
    intros p Hp. destruct (Nat.eq_dec p pos) as [->|Hne]; [exact Hr|].
    apply Hnone. lia.
Qed.

(** [search] returns the leftmost match. *)
Lemma search_leftmost (prog : list op) (s : text) (mo : match_obj) :
  search prog s = Some mo ->
  run prog s (m_start mo) [] = Some (m_end mo, m_marks mo) /\
  forall p, p < m_start mo -> run prog s p [] = None.
Proof.
  unfold search. intro H.
  destruct (search_from_leftmost prog s _ 0 mo H) as [_ [Hrun Hnone]].
  split; [exact Hrun|]. intros p Hp. apply Hnone. lia.
Qed.

Lemma collect_voters_spec (bs : list text) :
  length (collect_voters bs) <= length bs /\
  forall v, In v (collect_voters bs) -> exists b, In b bs /\ block_voter b = Some v.
Proof.
  induction bs as [|b bs [IHlen IHin]]; simpl.
  - split; [lia | contradiction].
  - destruct (block_voter b) as [w|] eqn:Hb; simpl.
    + split; [lia|]. intros v [<-|Hv].
      * exists b. auto.
      * destruct (IHin v Hv) as [b' [Hb' Hv']]. exists b'. auto.
    + split; [lia|]. intros v Hv.
      destruct (IHin v Hv) as [b' [Hb' Hv']]. exists b'. auto.
Qed.

End ExtractFacts.

(** * Sorting of name lists *)
Module SortFacts.
Import Text.

Lemma text_leb_total (a b : text) : text_leb a b = true \/ text_leb b a = true.
Proof.
  revert b; induction a as [|x a IH]; intros [|y b]; simpl; auto.
  destruct (N.lt_trichotomy x y) as [Hlt|[Heq|Hgt]].
  - left. apply orb_true_iff. left. apply N.ltb_lt. exact Hlt.
  - subst. rewrite N.ltb_irrefl, N.eqb_refl. simpl. apply IH.
  - right. apply orb_true_iff. left. apply N.ltb_lt. exact Hgt.
Qed.

Lemma text_leb_antisym (a b : text) : text_leb a b = true -> text_leb b a = true -> a = b.
Proof.
  revert b; induction a as [|x a IH]; intros [|y b]; simpl; try discriminate; auto.
  rewrite !orb_true_iff, !andb_true_iff, !N.ltb_lt, !N.eqb_eq.
  intros [H1|[E1 H1]] [H2|[E2 H2]]; try lia.
  subst y. f_equal. apply IH; assumption.
Qed.

Lemma text_leb_trans (a b c : text) :
  text_leb a b = true -> text_leb b c = true -> text_leb a c = true.
Proof.
  revert b c; induction a as [|x a IH]; intros [|y b] [|z c]; simpl; try discriminate; auto.
  rewrite !orb_true_iff, !andb_true_iff, !N.ltb_lt, !N.eqb_eq.
  intros [H1|[-> H1]] [H2|[-> H2]].
  - left. lia.
  - left. exact H1.
  - left. exact H2.
  - right. split; [reflexivity|]. eapply IH; eassumption.
Qed.

Definition le_text (a b : text) : Prop := text_leb a b = true.

Lemma insert_sorted_perm (x : text) (l : list text) : Permutation (x :: l) (insert_sorted x l).
Proof.
  induction l as [|y r IH]; simpl; [auto|].
  destruct (text_leb x y); [auto|].
  eapply perm_trans; [apply perm_swap|]. constructor. exact IH.
Qed.

Lemma sorted_perm (l : list text) : Permutation l (sorted l).
Proof.
  induction l as [|x r IH]; simpl; [auto|].
  eapply perm_trans; [constructor; exact IH|]. apply insert_sorted_perm.
Qed.

Lemma insert_sorted_Sorted (x : text) (l : list text) :
  Sorted le_text l -> Sorted le_text (insert_sorted x l).
Proof.
  induction 1 as [|y r Hr IH Hhd]; simpl; [constructor; auto|].
  destruct (text_leb x y) eqn:Hxy.
  - constructor; [constructor; auto|]. constructor. exact Hxy.
  - assert (Hyx : le_text y x).
    { destruct (text_leb_total x y) as [H|H]; [congruence|exact H]. }
    constructor; [exact IH|].
    destruct r as [|z r']; simpl; [constructor; exact Hyx|].
    inversion Hhd; subst.
    destruct (text_leb x z); constructor; assumption.
Qed.

Lemma sorted_Sorted (l : list text) : Sorted le_text (sorted l).
Proof.
  induction l; simpl; [constructor|]. apply insert_sorted_Sorted. assumption.
Qed.

Lemma le_text_trans : Transitive le_text.
Proof. intros a b c. apply text_leb_trans. Qed.

Lemma strongly_sorted_perm_eq (l1 l2 : list text) :
  StronglySorted le_text l1 -> StronglySorted le_text l2 -> Permutation l1 l2 -> l1 = l2.
Proof.
  revert l2; induction l1 as [|x r1 IH]; intros l2 H1 H2 Hp.
  - symmetry. apply Permutation_nil. exact Hp.
  - destruct l2 as [|y r2]; [apply Permutation_sym, Permutation_nil in Hp; discriminate|].
    apply StronglySorted_inv in H1 as [H1 F1].
    apply StronglySorted_inv in H2 as [H2 F2].
    assert (Hxy : x = y).
    { assert (Hx : In x (y :: r2)) by (eapply Permutation_in; [exact Hp|left; reflexivity]).
      assert (Hy : In y (x :: r1))
        by (eapply Permutation_in; [apply Permutation_sym; exact Hp|left; reflexivity]).
      destruct Hx as [Hx|Hx]; [symmetry; exact Hx|].
      destruct Hy as [Hy|Hy]; [exact Hy|].
      apply text_leb_antisym.
      - exact (proj1 (Forall_forall _ _) F1 y Hy).
      - exact (proj1 (Forall_forall _ _) F2 x Hx). }
    subst y. f_equal. apply IH; [exact H1|exact H2|].
    eapply Permutation_cons_inv. exact Hp.
Qed.

(** [sorted] depends only on the multiset of names. *)
Lemma sorted_perm_eq (l1 l2 : list text) : Permutation l1 l2 -> sorted l1 = sorted l2.
Proof.
  intro Hp. apply strongly_sorted_perm_eq.
  - apply Sorted_StronglySorted; [exact le_text_trans|apply sorted_Sorted].
  - apply Sorted_StronglySorted; [exact le_text_trans|apply sorted_Sorted].
  - eapply perm_trans; [apply Permutation_sym, sorted_perm|].
    eapply perm_trans; [exact Hp|apply sorted_perm].
Qed.

End SortFacts.

(** * Facts about box attachment *)
Module BoxFacts.
Import Text Extract Boxes.

Lemma Qle_bool_false (x y : Q) : Qle_bool x y = false -> (y < x)%Q.
Proof.
  intro H. apply Qnot_le_lt. intro H'. apply Qle_bool_iff in H'. congruence.
Qed.

Section Best.
Variable token : text.

Definition best_inv (seen : list OCRWord) (acc : option OCRWord * Q) : Prop :=
  match fst acc with
  | None => snd acc = 0%Q /\ forall w', In w' seen -> (word_score token w' < 70)%Q
  | Some w => In w seen /\ snd acc = word_score token w /\ (70 <= word_score token w)%Q /\
              forall w', In w' seen -> (word_score token w' <= snd acc)%Q
  end.

Lemma best_fold_inv (ws : list OCRWord) :
  forall seen acc, best_inv seen acc -> best_inv (seen ++ ws) (fold_left (best_step token) ws acc).
Proof.
  induction ws as [|w ws IH]; intros seen acc Hinv; simpl.
  - rewrite app_nil_r. exact Hinv.
  - replace (seen ++ w :: ws) with ((seen ++ [w]) ++ ws) by (rewrite <- app_assoc; reflexivity).
    apply IH. destruct acc as [bm bs]. unfold best_step. simpl.
    destruct (Qle_bool (word_score token w) bs) eqn:Hle;
    [apply Qle_bool_iff in Hle | apply Qle_bool_false in Hle];
    destruct (Qle_bool 70 (word_score token w)) eqn:H70;
    try apply Qle_bool_iff in H70; try apply Qle_bool_false in H70;
    simpl; unfold best_inv in *; simpl in *.
    + destruct bm as [b|].
      * destruct Hinv as [Hb [Hbs [H70b Hall]]]. split; [apply in_or_app; left; exact Hb|].
        split; [exact Hbs|]. split; [exact H70b|].
        intros w' Hw'. apply in_app_or in Hw' as [Hw'|[<-|[]]]; [apply Hall; exact Hw'|exact Hle].
      * destruct Hinv as [Hbs Hall]. split; [exact Hbs|].
        intros w' Hw'. apply in_app_or in Hw' as [Hw'|[<-|[]]]; [apply Hall; exact Hw'|].
        subst bs. lra.
    + destruct bm as [b|].
      * destruct Hinv as [Hb [Hbs [H70b Hall]]]. split; [apply in_or_app; left; exact Hb|].
        split; [exact Hbs|]. split; [exact H70b|].
        intros w' Hw'. apply in_app_or in Hw' as [Hw'|[<-|[]]]; [apply Hall; exact Hw'|exact Hle].
      * destruct Hinv as [Hbs Hall]. split; [exact Hbs|].
        intros w' Hw'. apply in_app_or in Hw' as [Hw'|[<-|[]]]; [apply Hall; exact Hw'|].
        lra.
    + split; [apply in_or_app; right; left; reflexivity|].
      split; [reflexivity|]. split; [exact H70|].
      intros w' Hw'. apply in_app_or in Hw' as [Hw'|[<-|[]]]; [|lra].
      destruct bm as [b|].
      * destruct Hinv as [_ [_ [_ Hall]]]. specialize (Hall w' Hw'). lra.
      * destruct Hinv as [_ Hall]. specialize (Hall w' Hw'). lra.
    + destruct bm as [b|].
      * destruct Hinv as [Hb [Hbs [H70b Hall]]]. exfalso. rewrite Hbs in Hle. lra.
      * destruct Hinv as [Hbs Hall]. split; [exact Hbs|].
        intros w' Hw'. apply in_app_or in Hw' as [Hw'|[<-|[]]]; [apply Hall; exact Hw'|].
        exact H70.
Qed.

Lemma best_word_spec (ws : list OCRWord) :
  match best_word token ws with
  | Some w => In w ws /\ (70 <= word_score token w)%Q /\
              forall w', In w' ws -> (word_score token w' <= word_score token w)%Q
  | None => forall w', In w' ws -> (word_score token w' < 70)%Q
  end.
Proof.
  pose proof (best_fold_inv ws [] (None, 0%Q) (conj eq_refl (fun w' (H : In w' []) => match H with end))) as H.
  unfold best_word. simpl in H. unfold best_inv in H.
  destruct (fold_left (best_step token) ws (None, 0%Q)) as [[w|] bs]; simpl in *.
  - destruct H as [Hw [Hbs [H70 Hall]]]. subst bs. auto.
  - destruct H as [_ Hall]. exact Hall.
Qed.

(** The best word is the first word reaching its score: every word seen
    before it scores strictly less. *)
Definition first_inv (seen : list OCRWord) (acc : option OCRWord * Q) : Prop :=
  match fst acc with
  | None => True
  | Some w => exists pre post, seen = pre ++ w :: post /\
              forall w', In w' pre -> (word_score token w' < word_score token w)%Q
  end.

Lemma first_step (seen : list OCRWord) (acc : option OCRWord * Q) (w : OCRWord) :
  best_inv seen acc -> first_inv seen acc -> first_inv (seen ++ [w]) (best_step token acc w).
Proof.
  destruct acc as [bm bs]. unfold best_step, first_inv, best_inv. simpl.
  intros Hinv Hfirst.
  destruct (Qle_bool (word_score token w) bs) eqn:Hle;
  [apply Qle_bool_iff in Hle | apply Qle_bool_false in Hle];
  destruct (Qle_bool 70 (word_score token w)) eqn:H70;
  try apply Qle_bool_iff in H70; try apply Qle_bool_false in H70; simpl.
  - destruct bm as [b|]; [|exact I].
    destruct Hfirst as (pre & post & -> & Hpre). exists pre, (post ++ [w]).
    split; [rewrite <- app_assoc; reflexivity|exact Hpre].
  - destruct bm as [b|]; [|exact I].
    destruct Hfirst as (pre & post & -> & Hpre). exists pre, (post ++ [w]).
    split; [rewrite <- app_assoc; reflexivity|exact Hpre].
  - exists seen, []. split; [reflexivity|].
    intros w' Hw'. destruct bm as [b|].
    + destruct Hinv as [_ [_ [_ Hall]]]. specialize (Hall w' Hw'). lra.
    + destruct Hinv as [_ Hall]. specialize (Hall w' Hw'). lra.
  - destruct bm as [b|]; [|exact I].
    destruct Hfirst as (pre & post & -> & Hpre). exists pre, (post ++ [w]).
    split; [rewrite <- app_assoc; reflexivity|exact Hpre].
Qed.

Lemma first_fold_inv (ws : list OCRWord) :
  forall seen acc, best_inv seen acc -> first_inv seen acc ->
  first_inv (seen ++ ws) (fold_left (best_step token) ws acc).
Proof.
  induction ws as [|w ws IH]; intros seen acc Hinv Hfirst; simpl.
  - rewrite app_nil_r. exact Hfirst.
  - replace (seen ++ w :: ws) with ((seen ++ [w]) ++ ws) by (rewrite <- app_assoc; reflexivity).
    apply IH.
    + exact (best_fold_inv [w] seen acc Hinv).
    + apply first_step; assumption.
Qed.

Lemma best_word_first (ws : list OCRWord) :
  match best_word token ws with
  | Some w => exists pre post, ws = pre ++ w :: post /\
              forall w', In w' pre -> (word_score token w' < word_score token w)%Q
  | None => True
  end.
Proof.
  pose proof (first_fold_inv ws [] (None, 0%Q)
                (conj eq_refl (fun w' (H : In w' []) => match H with end)) I) as H.
  unfold best_word. unfold first_inv in H. simpl in H. exact H.
Qed.

End Best.

End BoxFacts.

(** * Facts about the cache and the orchestrator *)
Module CacheFacts.
Import Text Cache.

Lemma text_eqb_refl (a : text) : text_eqb a a = true.
Proof. induction a as [|x a IH]; simpl; [reflexivity|]. rewrite N.eqb_refl. exact IH. Qed.

Lemma text_eqb_eq (a b : text) : text_eqb a b = true <-> a = b.
Proof.
  split; [|intros ->; apply text_eqb_refl].
  revert b; induction a as [|x a IH]; intros [|y b]; simpl; try discriminate; auto.
  rewrite andb_true_iff, N.eqb_eq. intros [-> H]. f_equal. apply IH. exact H.
Qed.

Lemma upd_same {SR : Type} (st : store SR) (k : key) v : upd SR st k v k = v.
Proof. unfold upd. rewrite text_eqb_refl. reflexivity. Qed.

Lemma upd_other {SR : Type} (st : store SR) (k k' : key) v : k' <> k -> upd SR st k v k' = st k'.
Proof.
  intro Hne. unfold upd. destruct (text_eqb k' k) eqn:E; [|reflexivity].
  apply text_eqb_eq in E. contradiction.
Qed.

Section Keys.
Variable sha256_hex : list N -> text.
Variable encode : text -> list N.
Variable str_int : Z -> text.
Variable SR : Type.

Lemma cache_key_perm (bytes : list N) (n1 n2 : list text) (t : Z) :
  Permutation n1 n2 -> cache_key sha256_hex encode str_int bytes n1 t
                       = cache_key sha256_hex encode str_int bytes n2 t.
Proof. intro Hp. unfold cache_key. rewrite (SortFacts.sorted_perm_eq n1 n2 Hp). reflexivity. Qed.

(** A [get] whose key is the one a successful [set] wrote, within the
    time to live, returns the results written. *)
Lemma get_after_set (self : ResultCache) (fs : docs) (st : store SR) (now now' : Z)
    (p p' : path) (n n' : list text) (t : Z) (R : list SR) (bytes : list N) :
  fs p = Some bytes -> fs p' = Some bytes ->
  cache_key sha256_hex encode str_int bytes n t = cache_key sha256_hex encode str_int bytes n' t ->
  (now' - now <= ttl self)%Z ->
  fst (get sha256_hex encode str_int SR self fs
         (snd (set sha256_hex encode str_int SR fs st now WriteOk p n t R)) now' p' n' t)
  = Returned (Some R).
Proof.
  intros Hp Hp' Hk Httl.
  unfold set, get. rewrite Hp, Hp'. simpl. rewrite <- Hk, upd_same. simpl.
  destruct (now' - now >? ttl self)%Z eqn:E.
  - apply Z.gtb_lt in E. lia.
  - unfold CACHE_VERSION. reflexivity.
Qed.

End Keys.

End CacheFacts.

Module ParallelFacts.
Import Text Parallel.

Section Counts.
Variable path : Type.
Variable SR : Type.
Variable name_of : path -> text.

Definition is_failure (o : doc_outcome SR) : bool :=
  match o with Failed _ _ => true | Succeeded _ _ => false end.

(** In [process_pdfs_parallel] only failures touch [stats]:
    [files_processed] keeps its initial value and [files_failed] grows by
    the number of failed documents. *)
Lemma collect_parallel_counts (outcome : path -> doc_outcome SR) (order : list path) :
  forall acc st,
  exists st', snd (collect_parallel path SR name_of outcome order acc (Some st)) = Some st' /\
    files_processed st' = files_processed st /\
    files_failed st' = files_failed st + length (filter (fun p => is_failure (outcome p)) order).
Proof.
  induction order as [|p order IH]; intros acc st; simpl.
  - exists st. repeat split; lia.
  - destruct (outcome p) as [res|msg]; simpl.
    + destruct (IH (acc ++ res) st) as [st' [H1 [H2 H3]]]. exists st'. repeat split; auto.
    + destruct (IH acc (MkStats (files_processed st) (S (files_failed st)) (pages_processed st)
                                (matches_found st) (errors st ++ [err_line path name_of p msg])))
        as [st' [H1 [H2 H3]]].
      exists st'. simpl in *. repeat split; auto. lia.
Qed.

(** In [cli._process_parallel] every document counts once: as processed
    or as failed. *)
Lemma collect_cli_counts (outcome : path -> doc_outcome SR) (order : list path) :
  forall acc st,
  let st' := snd (collect_cli path SR name_of outcome order acc st) in
  files_processed st' = files_processed st + length (filter (fun p => negb (is_failure (outcome p))) order) /\
  files_failed st' = files_failed st + length (filter (fun p => is_failure (outcome p)) order).
Proof.
  induction order as [|p order IH]; intros acc st; simpl.
  - lia.
  - destruct (outcome p) as [res|msg]; simpl;
      [destruct (IH (acc ++ res) (MkStats (S (files_processed st)) (files_failed st)
                   (pages_processed st) (matches_found st + length res) (errors st))) as [H1 H2]
      |destruct (IH acc (MkStats (files_processed st) (S (files_failed st)) (pages_processed st)
                   (matches_found st) (errors st ++ [err_line path name_of p msg]))) as [H1 H2]];
      simpl in *; split; lia.
Qed.

End Counts.

End ParallelFacts.

(** * The claims *)
Module Claims.
Import Text Normalize Regex Extract Fuzz Match Samples.

(** C7: [normalize_bn] is a total function with [normalize_bn("") = ""];
    its output is never longer than its input and contains none of the
    code points of the strip set (visarga, danda, virama, space). *)
Theorem normalize_bn_strips (s : text) :
  normalize_bn [] = [] /\
  length (normalize_bn s) <= length s /\
  forall c, In c strip_set -> ~ In c (normalize_bn s).
Proof.
  split; [reflexivity|].
  destruct s as [|c0 r] eqn:Hs; [simpl; split; [lia | intros c _ []]|].
  rewrite <- Hs. unfold normalize_bn. rewrite Hs. rewrite <- Hs.
  split.
  - eapply Nat.le_trans; [apply TextFacts.strip_length|].
    unfold translate_delete. apply filter_length_le.
  - intros c Hc Hin. apply TextFacts.strip_in in Hin.
    unfold translate_delete in Hin. apply filter_In in Hin as [_ Hm].
    apply (proj2 (TextFacts.mem_In c strip_set)) in Hc.
    rewrite Hc in Hm. discriminate.
Qed.

(** C8: [fuzzy_match(a, "", t)] and [fuzzy_match("", b, t)] are [False]
    for every threshold, whatever the scorer; and when the scoring raises,
    the result is [False]. *)
Theorem fuzzy_match_empty_or_failed (score : text -> text -> option Q)
    (a b : text) (t : Z) :
  fuzzy_match_with score a [] t = false /\
  fuzzy_match_with score [] b t = false /\
  (score (normalize_bn a) (normalize_bn b) = None -> fuzzy_match_with score a b t = false).
Proof.
  unfold fuzzy_match_with. split; [|split].
  - rewrite orb_true_r. reflexivity.
  - reflexivity.
  - intro H. rewrite H. destruct (is_nil a || is_nil b); reflexivity.
Qed.

(** C2: [fuzzy_match] is not insensitive to the order of whitespace
    tokens: [normalize_bn] deletes the spaces before
    [token_set_ratio] tokenizes, so ["আলী রহিম"] scores 400/7 against
    ["রহিম আলী"] while ["রহিম আলী"] scores 100; at threshold 80 the first
    matches and the permuted one does not. *)
Theorem fuzzy_match_token_order :
  fuzzy_match rahim_ali rahim_ali 80 = true /\
  fuzzy_match ali_rahim rahim_ali 80 = false /\
  normalize_bn ali_rahim = ali ++ rahim /\
  (token_set_ratio (normalize_bn ali_rahim) (normalize_bn rahim_ali) == 400 # 7)%Q.
Proof. vm_compute. repeat split; reflexivity. Qed.

(** C1: a block that holds only the guardian line
    ["পিতার নাম : করিম"] yields a record: the unanchored [NAME_RE] finds
    ["নাম : করিম"] inside the guardian label, so the record has
    [name = father = "করিম"]. A block with only the name line yields none. *)
Theorem extract_guardian_only_block :
  extract_voter_blocks (field_line lbl_pitar_nam karim) = [MkVoter karim karim None None None] /\
  extract_voter_blocks (field_line lbl_nam karim) = [].
Proof. vm_compute. split; reflexivity. Qed.

(** C10: [extract_voter_blocks] yields at most one record per block of
    [text.split("\n\n")], so no more records than blocks; each record comes
    from one block in which both patterns match, from the leftmost match of
    each pattern. *)
Theorem extract_one_record_per_block (s : text) :
  length (extract_voter_blocks s) <= length (split_nn s) /\
  forall v, In v (extract_voter_blocks s) ->
    exists b nm fm,
      In b (split_nn s) /\
      search NAME_RE b = Some nm /\ search FATHER_RE b = Some fm /\
      (forall p, p < m_start nm -> run NAME_RE b p [] = None) /\
      (forall p, p < m_start fm -> run FATHER_RE b p [] = None) /\
      v = MkVoter (strip (group b nm 1)) (strip (group b fm 2)) None None None.
Proof.
  unfold extract_voter_blocks.
  destruct (ExtractFacts.collect_voters_spec (split_nn s)) as [Hlen Hin].
  split; [exact Hlen|].
  intros v Hv. destruct (Hin v Hv) as [b [Hb Hbv]].
  unfold block_voter in Hbv.
  destruct (search NAME_RE b) as [nm|] eqn:Hn; [|discriminate].
  destruct (search FATHER_RE b) as [fm|] eqn:Hf; [|discriminate].
  injection Hbv as <-.
  exists b, nm, fm.
  split; [exact Hb|]. split; [exact Hn|]. split; [exact Hf|].
  split; [exact (proj2 (ExtractFacts.search_leftmost _ _ _ Hn))|].
  split; [exact (proj2 (ExtractFacts.search_leftmost _ _ _ Hf))|].
  reflexivity.
Qed.

(** C9 (counterexample): the token loop of [_find_text_words] takes the
    best word over all OCR words and drops it when it is already claimed,
    without falling back to an unclaimed word: for ["রহিম রহিম"] against
    the words ["রহিম"] and ["রহিমা"] (score 800/9 >= 70), the second token
    gets no word, where the rule "best word among the unclaimed ones"
    attributes ["রহিমা"] to it. *)
Lemma find_text_words_no_fallback :
  Boxes.find_text_words (rahim ++ [space] ++ rahim) [word_rahim; word_rahima] = [word_rahim] /\
  Boxes.find_text_words_spec (rahim ++ [space] ++ rahim) [word_rahim; word_rahima]
    = [word_rahim; word_rahima] /\
  (70 <= Boxes.word_score rahim word_rahima)%Q.
Proof. vm_compute. split; [reflexivity|]. split; [reflexivity|]. discriminate. Qed.

(** C9 (amended): for each token the candidate is the first OCR word
    whose score is maximal over all OCR words (every word before it scores
    strictly less), provided that score is at least 70 (no candidate when
    every score is below 70); a candidate already claimed by the field is
    dropped with no fallback. Every text record is kept with its name
    and father; a field with no attributed word has no bbox, and the
    confidence is absent exactly when neither field has a word. *)
Theorem box_attachment_rule (ws : list Boxes.OCRWord) (s : text) :
  (forall token,
     match Boxes.best_word token ws with
     | Some w => In w ws /\ (70 <= Boxes.word_score token w)%Q /\
                 (forall w', In w' ws -> (Boxes.word_score token w' <= Boxes.word_score token w)%Q) /\
                 exists pre post, ws = pre ++ w :: post /\
                   forall w', In w' pre -> (Boxes.word_score token w' < Boxes.word_score token w)%Q
     | None => forall w', In w' ws -> (Boxes.word_score token w' < 70)%Q
     end) /\
  (forall token matching w,
     Boxes.best_word token ws = Some w -> Boxes.word_in w matching = true ->
     Boxes.token_step ws matching token = matching) /\
  map (fun v => (name v, father v)) (Boxes.extract_voter_blocks_with_boxes s ws)
    = map (fun v => (name v, father v)) (extract_voter_blocks s) /\
  (forall v,
     (name_bbox (Boxes.attach_boxes ws v) = None <-> Boxes.find_text_words (name v) ws = []) /\
     (father_bbox (Boxes.attach_boxes ws v) = None <-> Boxes.find_text_words (father v) ws = []) /\
     (confidence (Boxes.attach_boxes ws v) = None <->
        Boxes.find_text_words (name v) ws = [] /\ Boxes.find_text_words (father v) ws = [])).
Proof.
  split.
  { intro token. pose proof (BoxFacts.best_word_spec token ws) as Hs.
    pose proof (BoxFacts.best_word_first token ws) as Hf.
    destruct (Boxes.best_word token ws) as [w|]; [|exact Hs].
    destruct Hs as (Hin & H70 & Hmax). split; [exact Hin|]. split; [exact H70|].
    split; [exact Hmax|exact Hf]. }
  split.
  { intros token matching w Hb Hin. unfold Boxes.token_step. rewrite Hb, Hin. reflexivity. }
  split.
  { unfold Boxes.extract_voter_blocks_with_boxes. rewrite map_map.
    apply map_ext. intro v. reflexivity. }
  intro v. unfold Boxes.attach_boxes; simpl.
  destruct (Boxes.find_text_words (name v) ws) as [|a l];
  destruct (Boxes.find_text_words (father v) ws) as [|b m]; simpl;
  repeat split; intros; try discriminate; try reflexivity;
  try (destruct H; discriminate).
Qed.

Section CacheClaims.
Import Cache.
Variable sha256_hex : list N -> text.
Variable encode : text -> list N.
Variable str_int : Z -> text.
Variable SR : Type.

(** C4: the cache key is computed from the document's bytes, the sorted
    names and the threshold only: [get] and [set] behave the same for two
    paths with identical bytes and for any permutation of the name list;
    in particular [set] with [[x; y]] followed by [get] with [[y; x]] (on
    a byte-identical file, within the time to live) hits the entry. *)
Theorem cache_key_content_addressed (self : ResultCache) (fs : docs) (st : store SR)
    (now : Z) (p1 p2 : path) (names1 names2 : list text) (t : Z) :
  fs p1 = fs p2 -> Permutation names1 names2 ->
  get sha256_hex encode str_int SR self fs st now p1 names1 t
    = get sha256_hex encode str_int SR self fs st now p2 names2 t /\
  (forall w R, set sha256_hex encode str_int SR fs st now w p1 names1 t R
               = set sha256_hex encode str_int SR fs st now w p2 names2 t R) /\
  (forall bytes x y R now',
     fs p1 = Some bytes -> (now' - now <= ttl self)%Z ->
     fst (get sha256_hex encode str_int SR self fs
            (snd (set sha256_hex encode str_int SR fs st now WriteOk p1 [x; y] t R))
            now' p2 [y; x] t) = Returned (Some R)).
Proof.
  intros Hfs Hp.
  split; [|split].
  - unfold get. rewrite Hfs. destruct (fs p2) as [bytes|]; [|reflexivity].
    rewrite (CacheFacts.cache_key_perm sha256_hex encode str_int bytes names1 names2 t Hp).
    reflexivity.
  - intros w R. unfold set. rewrite Hfs. destruct (fs p2) as [bytes|]; [|reflexivity].
    rewrite (CacheFacts.cache_key_perm sha256_hex encode str_int bytes names1 names2 t Hp).
    reflexivity.
  - intros bytes x y R now' Hb Httl.
    apply (CacheFacts.get_after_set sha256_hex encode str_int SR self fs st now now' p1 p2
             [x; y] [y; x] t R bytes Hb); [congruence| |exact Httl].
    apply CacheFacts.cache_key_perm. apply perm_swap.
Qed.

(** C5: after a successful [set(doc, names, t, R)], [get(doc, names, t)]
    before the time to live has passed returns exactly [R]. *)
Theorem cache_roundtrip (self : ResultCache) (fs : docs) (st : store SR) (now now' : Z)
    (p : path) (names : list text) (t : Z) (R : list SR) (bytes : list N) :
  fs p = Some bytes -> (now' - now <= ttl self)%Z ->
  fst (get sha256_hex encode str_int SR self fs
         (snd (set sha256_hex encode str_int SR fs st now WriteOk p names t R))
         now' p names t) = Returned (Some R).
Proof.
  intros Hb Httl.
  exact (CacheFacts.get_after_set sha256_hex encode str_int SR self fs st now now' p p
           names names t R bytes Hb Hb eq_refl Httl).
Qed.

(** C6: for a readable document, [get] never raises; it misses with the
    store unchanged when there is no entry, and misses and unlinks the entry
    when it is older than the time to live, cannot be read or parsed, or
    carries another version; the unlink removes exactly that entry when
    the OS allows it. *)
Theorem cache_get_miss_cases (self : ResultCache) (fs : docs) (st : store SR) (now : Z)
    (p : path) (names : list text) (t : Z) (bytes : list N) :
  fs p = Some bytes ->
  let k := cache_key sha256_hex encode str_int bytes names t in
  fst (get sha256_hex encode str_int SR self fs st now p names t) <> Raised /\
  (st k = None -> get sha256_hex encode str_int SR self fs st now p names t = (Returned None, st)) /\
  (forall f, st k = Some f ->
     ((now - mtime SR f > ttl self)%Z \/ body SR f = Unreadable SR \/ body SR f = Unparsable SR
      \/ body SR f = JsonNonDict SR
      \/ exists v r, body SR f = JsonEntry SR v r /\ v <> Some CACHE_VERSION) ->
     get sha256_hex encode str_int SR self fs st now p names t = (Returned None, unlink SR st k)) /\
  (forall f, st k = Some f -> unlinkable SR f = true ->
     unlink SR st k k = None /\ forall k', k' <> k -> unlink SR st k k' = st k').
Proof.
  intros Hb k. unfold get. rewrite Hb. fold k.
  split; [|split; [|split]].
  - destruct (st k) as [f|]; [|discriminate].
    destruct (now - mtime SR f >? ttl self)%Z; [discriminate|].
    destruct (body SR f) as [| | |[ver|] r]; try discriminate.
    destruct (text_eqb ver CACHE_VERSION); discriminate.
  - intros Hk. rewrite Hk. reflexivity.
  - intros f Hk Hcase. rewrite Hk.
    destruct (now - mtime SR f >? ttl self)%Z eqn:E; [reflexivity|].
    rewrite Z.gtb_ltb in E. apply Z.ltb_ge in E.
    destruct Hcase as [Hexp|[H|[H|[H|[v [r [H Hv]]]]]]]; try lia; rewrite H; try reflexivity.
    destruct v as [ver|]; [|reflexivity].
    destruct (text_eqb ver CACHE_VERSION) eqn:Ev; [|reflexivity].
    apply CacheFacts.text_eqb_eq in Ev. subst ver. contradiction.
  - intros f Hk Hu. unfold unlink. rewrite Hk, Hu. split.
    + apply CacheFacts.upd_same.
    + intros k' Hne. apply CacheFacts.upd_other. exact Hne.
Qed.

End CacheClaims.

(** C3: [process_pdfs_parallel] never increments [files_processed]: with
    two documents, the first failing and the second succeeding, the run
    ends with [files_failed = 1] but [files_processed = 0] (the claim
    expects [N - 1 = 1]); the successful document's results are kept. *)
Theorem parallel_stats_one_failure :
  Parallel.process_pdfs_parallel nat nat (fun _ => [])
    [1; 2] (fun p => if p =? 1 then Parallel.Failed nat [] else Parallel.Succeeded nat [7])
    [2; 1] (Some (Parallel.MkStats 0 0 0 0 []))
  = ([7], Some (Parallel.MkStats 0 1 0 0 [[58; 32]%N])).
Proof. reflexivity. Qed.

(** A concrete run of C4: two paths with the same bytes, names permuted. *)
Lemma cache_key_content_addressed_witness :
  same_bytes_docs [1%N] = same_bytes_docs [2%N] /\
  Permutation [rahim; karim] [karim; rahim] /\
  Cache.get toy_hex toy_encode toy_str nat default_cache same_bytes_docs empty_store 0
    [1%N] [rahim; karim] 80
  = Cache.get toy_hex toy_encode toy_str nat default_cache same_bytes_docs empty_store 0
    [2%N] [karim; rahim] 80.
Proof.
  split; [reflexivity|]. split; [apply perm_swap|].
  exact (proj1 (cache_key_content_addressed toy_hex toy_encode toy_str nat default_cache
                  same_bytes_docs empty_store 0 [1%N] [2%N] [rahim; karim] [karim; rahim] 80
                  eq_refl (perm_swap _ _ _))).
Defined.

(** A concrete run of C5: set at time 0, get one day later. *)
Lemma cache_roundtrip_witness :
  same_bytes_docs [1%N] = Some pdf_bytes /\
  (86400 - 0 <= Cache.ttl default_cache)%Z /\
  fst (Cache.get toy_hex toy_encode toy_str nat default_cache same_bytes_docs
         (snd (Cache.set toy_hex toy_encode toy_str nat same_bytes_docs empty_store 0
                 Cache.WriteOk [1%N] [rahim] 80 [3; 4]))
         86400 [1%N] [rahim] 80) = Cache.Returned (Some [3; 4]).
Proof.
  assert (H1 : same_bytes_docs [1%N] = Some pdf_bytes) by reflexivity.
  assert (H2 : (86400 - 0 <= Cache.ttl default_cache)%Z) by (vm_compute; discriminate).
  split; [exact H1|]. split; [exact H2|].
  exact (cache_roundtrip toy_hex toy_encode toy_str nat default_cache same_bytes_docs
           empty_store 0 86400 [1%N] [rahim] 80 [3; 4] pdf_bytes H1 H2).
Defined.

(** A concrete run of C6: a readable document and an empty cache. *)
Lemma cache_get_miss_cases_witness :
  same_bytes_docs [1%N] = Some pdf_bytes /\
  fst (Cache.get toy_hex toy_encode toy_str nat default_cache same_bytes_docs empty_store 0
         [1%N] [rahim] 80) <> Cache.Raised.
Proof.
  assert (H1 : same_bytes_docs [1%N] = Some pdf_bytes) by reflexivity.
  split; [exact H1|].
  exact (proj1 (cache_get_miss_cases toy_hex toy_encode toy_str nat default_cache
                  same_bytes_docs empty_store 0 [1%N] [rahim] 80 pdf_bytes H1)).
Defined.

End Claims.

(** * Further properties of the code *)
Module ExtraFacts.
Import Text Extract Fuzz Boxes.

Lemma fold_min_le (l : list Z) : forall a, (fold_left Z.min l a <= a)%Z /\
  forall x, In x l -> (fold_left Z.min l a <= x)%Z.
Proof.
  induction l as [|y l IH]; intro a; simpl; [split; [lia|contradiction]|].
  destruct (IH (Z.min a y)) as [H1 H2]. split; [lia|].
  intros x [<-|Hx]; [lia|apply H2; exact Hx].
Qed.

Lemma fold_max_ge (l : list Z) : forall a, (a <= fold_left Z.max l a)%Z /\
  forall x, In x l -> (x <= fold_left Z.max l a)%Z.
Proof.
  induction l as [|y l IH]; intro a; simpl; [split; [lia|contradiction]|].
  destruct (IH (Z.max a y)) as [H1 H2]. split; [lia|].
  intros x [<-|Hx]; [lia|apply H2; exact Hx].
Qed.

Lemma fold_min_attained (l : list Z) : forall a, fold_left Z.min l a = a \/ In (fold_left Z.min l a) l.
Proof.
  induction l as [|y l IH]; intro a; simpl; [left; reflexivity|].
  destruct (IH (Z.min a y)) as [H|H]; [|right; right; exact H].
  rewrite H. destruct (Z.min_spec a y) as [[_ E]|[_ E]]; rewrite E; [left|right; left]; reflexivity.
Qed.

Lemma fold_max_attained (l : list Z) : forall a, fold_left Z.max l a = a \/ In (fold_left Z.max l a) l.
Proof.
  induction l as [|y l IH]; intro a; simpl; [left; reflexivity|].
  destruct (IH (Z.max a y)) as [H|H]; [|right; right; exact H].
  rewrite H. destruct (Z.max_spec a y) as [[_ E]|[_ E]]; rewrite E; [right; left|left]; reflexivity.
Qed.

Lemma token_step_incl (ws : list OCRWord) (toks : list text) :
  forall acc, incl acc ws -> incl (fold_left (token_step ws) toks acc) ws.
Proof.
  induction toks as [|t toks IH]; intros acc Hacc; simpl; [exact Hacc|].
  apply IH. unfold token_step.
  pose proof (BoxFacts.best_word_spec t ws) as Hb.
  destruct (best_word t ws) as [w|]; [|exact Hacc].
  destruct (word_in w acc); [exact Hacc|].
  intros x Hx. apply in_app_or in Hx as [Hx|[<-|[]]]; [apply Hacc; exact Hx|apply Hb].
Qed.

(** The words [_find_text_words] returns are OCR words of the page. *)
Lemma find_text_words_incl (s : text) (ws : list OCRWord) : incl (find_text_words s ws) ws.
Proof.
  unfold find_text_words. destruct (is_nil s || is_nil ws); [intros x []|].
  apply token_step_incl. intros x [].
Qed.

Section Admin.
Variable SR : Type.
Import Cache CacheAdmin.

Lemma clear_loop_effect (files : list key) : forall (st : store SR) count,
  let '(st', n) := clear_loop SR st files count in
  count <= n <= count + length files /\
  (forall k, ~ In k files -> st' k = st k) /\
  (forall k, st' k = st k \/ st' k = None) /\
  (forall k, In k (firstn (n - count) files) -> st' k = None).
Proof.
  induction files as [|k rest IH]; intros st count; simpl.
  - split; [lia|]. split; [reflexivity|]. split; [left; reflexivity|].
    rewrite firstn_nil. intros k [].
  - destruct (st k) as [f|] eqn:Ek; [destruct (unlinkable SR f) eqn:Eu|].
    + specialize (IH (upd SR st k None) (S count)).
      destruct (clear_loop SR (upd SR st k None) rest (S count)) as [st' n].
      destruct IH as (Hn & Hout & Hkeep & Hdel).
      assert (Hk : st' k = None).
      { destruct (Hkeep k) as [H|H]; [rewrite H; apply CacheFacts.upd_same|exact H]. }
      split; [lia|]. split; [|split].
      * intros k' Hk'. rewrite Hout by tauto. apply CacheFacts.upd_other. intro; subst; tauto.
      * intro k'. destruct (CacheFacts.text_eqb_eq k' k) as [Heq _].
        destruct (text_eqb k' k) eqn:E.
        -- rewrite (Heq eq_refl). right; exact Hk.
        -- destruct (Hkeep k') as [H|H]; [left|right; exact H].
           rewrite H. unfold upd. rewrite E. reflexivity.
      * replace (n - count) with (S (n - S count)) by lia. simpl.
        intros k' [<-|Hin]; [exact Hk|apply Hdel; exact Hin].
    + split; [lia|]. split; [reflexivity|]. split; [left; reflexivity|].
      rewrite Nat.sub_diag. intros k' [].
    + split; [lia|]. split; [reflexivity|]. split; [left; reflexivity|].
      rewrite Nat.sub_diag. intros k' [].
Qed.

Lemma clear_loop_all (files : list key) : forall (st : store SR) count,
  NoDup files ->
  (forall k, In k files -> exists f, st k = Some f /\ unlinkable SR f = true) ->
  snd (clear_loop SR st files count) = count + length files /\
  forall k, In k files -> fst (clear_loop SR st files count) k = None.
Proof.
  induction files as [|k rest IH]; intros st count Hnd Hall; simpl.
  - split; [lia|]. intros k [].
  - inversion Hnd as [|? ? Hnin Hnd']; subst.
    destruct (Hall k (or_introl eq_refl)) as [f [Ek Eu]]. rewrite Ek, Eu.
    assert (Hall' : forall k', In k' rest ->
              exists f, upd SR st k None k' = Some f /\ unlinkable SR f = true).
    { intros k' Hk'. rewrite CacheFacts.upd_other by (intro; subst; contradiction).
      apply Hall. right; exact Hk'. }
    destruct (IH (upd SR st k None) (S count) Hnd' Hall') as [Hn Hdel].
    split; [rewrite Hn; lia|].
    intros k' [<-|Hk'].
    + pose proof (clear_loop_effect rest (upd SR st k None) (S count)) as He.
      destruct (clear_loop SR (upd SR st k None) rest (S count)) as [st' n].
      destruct He as (_ & Hout & _). simpl. rewrite Hout by exact Hnin.
      apply CacheFacts.upd_same.
    + apply Hdel. exact Hk'.
Qed.

Lemma clear_expired_loop_effect (self : ResultCache) (now : Z) (files : list key) :
  forall (st : store SR) count,
  let '(st', n) := clear_expired_loop SR self now st files count in
  count <= n <= count + length files /\
  (forall k, ~ In k files -> st' k = st k) /\
  (forall k, st' k = st k \/ st' k = None) /\
  (forall k f, st k = Some f -> st' k = None -> (ttl self < now - mtime SR f)%Z).
Proof.
  induction files as [|k rest IH]; intros st count; simpl.
  - split; [lia|]. split; [reflexivity|]. split; [left; reflexivity|].
    intros k f E1 E2. congruence.
  - destruct (st k) as [f|] eqn:Ek.
    2:{ split; [lia|]. split; [reflexivity|]. split; [left; reflexivity|].
        intros k' f' E1 E2. congruence. }
    destruct (now - mtime SR f >? ttl self)%Z eqn:Ex; [destruct (unlinkable SR f) eqn:Eu|].
    + specialize (IH (upd SR st k None) (S count)).
      destruct (clear_expired_loop SR self now (upd SR st k None) rest (S count)) as [st' n].
      destruct IH as (Hn & Hout & Hkeep & Hexp).
      split; [lia|]. split; [|split].
      * intros k' Hk'. rewrite Hout by tauto. apply CacheFacts.upd_other. intro; subst; tauto.
      * intro k'. destruct (CacheFacts.text_eqb_eq k' k) as [Heq _].
        destruct (text_eqb k' k) eqn:E.
        -- rewrite (Heq eq_refl). destruct (Hkeep k) as [H|H]; right; [|exact H].
           rewrite H. apply CacheFacts.upd_same.
        -- destruct (Hkeep k') as [H|H]; [left|right; exact H].
           rewrite H. unfold upd. rewrite E. reflexivity.
      * intros k' f' E1 E2. destruct (CacheFacts.text_eqb_eq k' k) as [Heq _].
        destruct (text_eqb k' k) eqn:E.
        -- rewrite (Heq eq_refl) in E1. rewrite Ek in E1. injection E1 as <-.
           apply Z.gtb_lt in Ex. exact Ex.
        -- apply (Hexp k' f'); [|exact E2]. unfold upd. rewrite E. exact E1.
    + split; [lia|]. split; [reflexivity|]. split; [left; reflexivity|].
      intros k' f' E1 E2. congruence.
    + specialize (IH st count).
      destruct (clear_expired_loop SR self now st rest count) as [st' n].
      destruct IH as (Hn & Hout & Hkeep & Hexp).
      split; [lia|]. split; [|split; [exact Hkeep|exact Hexp]].
      intros k' Hk'. apply Hout. tauto.
Qed.

Lemma clear_expired_loop_all (self : ResultCache) (now : Z) (files : list key) :
  forall (st : store SR) count,
  NoDup files ->
  (forall k, In k files -> exists f, st k = Some f /\ unlinkable SR f = true) ->
  snd (clear_expired_loop SR self now st files count)
    = count + length (filter (expired_at SR self now st) files) /\
  forall k, In k files ->
    fst (clear_expired_loop SR self now st files count) k
      = if expired_at SR self now st k then None else st k.
Proof.
  induction files as [|k rest IH]; intros st count Hnd Hall; simpl.
  - split; [lia|]. intros k [].
  - inversion Hnd as [|? ? Hnin Hnd']; subst.
    destruct (Hall k (or_introl eq_refl)) as [f [Ek Eu]].
    assert (Hexp_rest : forall st2, (forall k', In k' rest -> st2 k' = st k') ->
              filter (expired_at SR self now st2) rest = filter (expired_at SR self now st) rest).
    { intros st2 Hs. apply filter_ext_in. intros k' Hk'. unfold expired_at. rewrite Hs by exact Hk'.
      reflexivity. }
    unfold expired_at at 1. rewrite Ek.
    destruct (now - mtime SR f >? ttl self)%Z eqn:Ex.
    + rewrite Eu.
      assert (Hs : forall k', In k' rest -> upd SR st k None k' = st k').
      { intros k' Hk'. apply CacheFacts.upd_other. intro; subst; contradiction. }
      assert (Hall' : forall k', In k' rest ->
                exists f, upd SR st k None k' = Some f /\ unlinkable SR f = true).
      { intros k' Hk'. rewrite Hs by exact Hk'. apply Hall. right; exact Hk'. }
      destruct (IH (upd SR st k None) (S count) Hnd' Hall') as [Hn Hdel].
      split; [rewrite Hn, (Hexp_rest _ Hs); simpl; lia|].
      intros k' [<-|Hk'].
      * unfold expired_at. rewrite Ek, Ex.
        pose proof (clear_expired_loop_effect self now rest (upd SR st k None) (S count)) as He.
        destruct (clear_expired_loop SR self now (upd SR st k None) rest (S count)) as [st' n].
        destruct He as (_ & Hout & _). simpl. rewrite Hout by exact Hnin.
        apply CacheFacts.upd_same.
      * rewrite Hdel by exact Hk'. unfold expired_at. rewrite Hs by exact Hk'. reflexivity.
    + destruct (IH st count Hnd' (fun k' Hk' => Hall k' (or_intror Hk'))) as [Hn Hdel].
      split; [exact Hn|].
      intros k' [<-|Hk'].
      * unfold expired_at. rewrite Ek, Ex.
        pose proof (clear_expired_loop_effect self now rest st count) as He.
        destruct (clear_expired_loop SR self now st rest count) as [st' n].
        destruct He as (_ & Hout & _). simpl. rewrite Hout by exact Hnin. exact Ek.
      * apply Hdel. exact Hk'.
Qed.

End Admin.

Lemma size_ok (n : nat) (m : Z) :
  Qle_bool (inject_Z (Z.of_nat n) / inject_Z (1024 * 1024)) (inject_Z m) = true <->
  (Z.of_nat n <= m * 1048576)%Z.
Proof.
  unfold Qle_bool, Qdiv, Qmult, Qinv, inject_Z. simpl.
  rewrite Z.leb_le. lia.
Qed.

Lemma startswith_spec (s p : text) : Validation.startswith s p = true <-> exists t, s = p ++ t.
Proof.
  revert s; induction p as [|a p IH]; intros [|c s]; simpl.
  - split; [exists []; reflexivity|reflexivity].
  - split; [eexists; reflexivity|reflexivity].
  - split; [discriminate|intros [t Ht]; discriminate].
  - rewrite andb_true_iff, N.eqb_eq, IH. split.
    + intros [-> [t ->]]. exists t. reflexivity.
    + intros [t Ht]. injection Ht as -> ->. split; [reflexivity|exists t; reflexivity].
Qed.

Section ExportFacts.
Import Exports.

Lemma field_eqb_eq (a b : field) : field_eqb a b = true <-> a = b.
Proof. destruct a, b; simpl; split; congruence. Qed.

Lemma make_row_keys (hb hc : bool) (r : SearchResult) row :
  make_row hb hc r = Some row -> forall kv, In kv row -> In (fst kv) (csv_fieldnames hb hc).
Proof.
  unfold make_row, csv_fieldnames.
  intros H kv Hkv.
  destruct hb, hc; [destruct (r_bbox r) as [[b|]|] | destruct (r_bbox r) as [[b|]|] | |];
    try (destruct (r_confidence r) as [[c|]|]; try discriminate);
    injection H as <-; simpl in Hkv; simpl;
    repeat (destruct Hkv as [<-|Hkv]; [simpl; tauto|]); contradiction.
Qed.

Lemma make_row_none (hb hc : bool) (r : SearchResult) :
  make_row hb hc r = None <-> hc = true /\ r_confidence r = Some None.
Proof.
  unfold make_row. destruct hc; [|split; [discriminate|intros [H _]; discriminate]].
  destruct (r_confidence r) as [[c|]|]; split; try discriminate; try tauto;
    intros [_ H]; discriminate.
Qed.

Lemma writerow_some (fs : list field) row :
  (forall kv, In kv row -> In (fst kv) fs) ->
  writerow fs row =
  if forallb cell_encodable (map (row_get row) fs) then Some (Row (map (row_get row) fs)) else None.
Proof.
  intro H. unfold writerow.
  replace (forallb _ row) with true; [reflexivity|].
  symmetry. apply forallb_forall. intros kv Hkv. apply existsb_exists.
  exists (fst kv). split; [apply H; exact Hkv|apply field_eqb_eq; reflexivity].
Qed.

Lemma make_row_encodable (hb hc : bool) (r : SearchResult) row :
  make_row hb hc r = Some row ->
  forallb cell_encodable (map (row_get row) (csv_fieldnames hb hc)) = result_encodable r.
Proof.
  unfold make_row, csv_fieldnames, result_encodable.
  intro H.
  destruct hb, hc; [destruct (r_bbox r) as [[b|]|] | destruct (r_bbox r) as [[b|]|] | |];
    try (destruct (r_confidence r) as [[c|]|]; try discriminate);
    injection H as <-; simpl;
    destruct (utf8_encodable (r_file r)), (utf8_encodable (r_name r)), (utf8_encodable (r_father r));
    reflexivity.
Qed.

Lemma row_written (hb hc : bool) (r : SearchResult) :
  match make_row hb hc r with
  | None => None
  | Some row => writerow (csv_fieldnames hb hc) row
  end =
  if (negb (hc && match r_confidence r with Some None => true | _ => false end)
      && result_encodable r)%bool
  then option_map (fun row => Row (map (row_get row) (csv_fieldnames hb hc))) (make_row hb hc r)
  else None.
Proof.
  destruct (make_row hb hc r) as [row|] eqn:Er.
  - rewrite (writerow_some _ row (make_row_keys hb hc r row Er)).
    rewrite (make_row_encodable hb hc r row Er).
    assert (Hc : (hc && match r_confidence r with Some None => true | _ => false end)%bool = false).
    { destruct hc; [|reflexivity]. simpl.
      destruct (r_confidence r) as [[c|]|] eqn:Ec; try reflexivity.
      assert (N : make_row hb true r = None) by (apply make_row_none; split; [reflexivity|exact Ec]). congruence. }
    rewrite Hc. simpl. destruct (result_encodable r); reflexivity.
  - apply make_row_none in Er. destruct Er as [-> ->]. reflexivity.
Qed.

Lemma row_ok_iff (hc : bool) (r : SearchResult) :
  (negb (hc && match r_confidence r with Some None => true | _ => false end)
   && result_encodable r)%bool = true <->
  conf_ok hc r /\ result_encodable r = true.
Proof.
  unfold conf_ok. rewrite andb_true_iff, negb_true_iff.
  destruct hc; simpl;
    [destruct (r_confidence r) as [[c|]|]; simpl|];
    split; intros [H1 H2]; split; try exact H2; try discriminate; try tauto;
    intros [H3 H4]; discriminate.
Qed.

Lemma write_rows_spec (hb hc : bool) (rs : list SearchResult) :
  let '(lines, ok) := write_rows (csv_fieldnames hb hc) hb hc rs in
  (forall l, In l lines -> exists cells, l = Row cells /\ length cells = length (csv_fieldnames hb hc)) /\
  (ok = true <-> forall r, In r rs -> conf_ok hc r /\ result_encodable r = true) /\
  (ok = true -> length lines = length rs).
Proof.
  induction rs as [|r rs IH]; simpl.
  - split; [intros l []|]. split; [split; [intros _ r []|reflexivity]|reflexivity].
  - pose proof (row_written hb hc r) as Hw. pose proof (row_ok_iff hc r) as Hi.
    destruct (negb _ && _)%bool.
    + destruct (make_row hb hc r) as [row|] eqn:Er;
        [|exfalso; apply make_row_none in Er; exact (proj1 (proj1 Hi eq_refl) Er)].
      cbn [option_map] in Hw. rewrite Hw.
      destruct (write_rows (csv_fieldnames hb hc) hb hc rs) as [lines ok].
      destruct IH as (Hl & Hok & Hlen).
      split; [|split].
      * intros l [<-|Hin]; [|apply Hl; exact Hin].
        eexists; split; [reflexivity|apply length_map].
      * rewrite Hok. split.
        -- intros Hall r' [<-|Hin]; [apply Hi; reflexivity|apply Hall; exact Hin].
        -- intros Hall r' Hin. apply Hall. right; exact Hin.
      * intro H. simpl. rewrite (Hlen H). reflexivity.
    +
      destruct (make_row hb hc r) as [row|] eqn:Er; try rewrite Hw; simpl;
      (split; [intros l []|]; split; [|discriminate];
       split; [discriminate|]; intros Hall;
       assert (K := proj2 Hi (Hall r (or_introl eq_refl))); discriminate).
Qed.


Lemma has_conf_key (rs : list SearchResult) :
  existsb (fun r => has_key (r_confidence r)) rs = true <-> exists r, In r rs /\ r_confidence r <> None.
Proof.
  rewrite existsb_exists. split; intros [r [Hin H]]; exists r; split; try exact Hin;
    destruct (r_confidence r); simpl in *; congruence.
Qed.

Lemma has_bbox_key (rs : list SearchResult) :
  existsb (fun r => has_key (r_bbox r)) rs = true <-> exists r, In r rs /\ r_bbox r <> None.
Proof.
  rewrite existsb_exists. split; intros [r [Hin H]]; exists r; split; try exact Hin;
    destruct (r_bbox r); simpl in *; congruence.
Qed.


Lemma rfind_dot_none (s : text) : ~ In 46%N s -> rfind_dot s = None.
Proof.
  induction s as [|c s IH]; simpl; intro H; [reflexivity|].
  rewrite IH by tauto. destruct (N.eqb_spec c 46); [exfalso; apply H; left; congruence|reflexivity].
Qed.

Lemma rfind_dot_none_iff (s : text) : rfind_dot s = None <-> ~ In 46%N s.
Proof.
  split; [|apply rfind_dot_none].
  induction s as [|c s IH]; simpl; [tauto|].
  destruct (rfind_dot s); [discriminate|].
  destruct (N.eqb_spec c 46); [discriminate|]. intros _ [H|H]; [congruence|exact (IH eq_refl H)].
Qed.

Lemma rfind_dot_last (l1 l2 : text) : ~ In 46%N l2 -> rfind_dot (l1 ++ 46%N :: l2) = Some (length l1).
Proof.
  intro H. induction l1 as [|c l1 IH]; simpl.
  - rewrite rfind_dot_none by exact H. reflexivity.
  - rewrite IH. reflexivity.
Qed.

Lemma suffix_last (stem ext : text) :
  stem <> [] -> ext <> [] -> ~ In 46%N ext -> suffix (stem ++ 46%N :: ext) = 46%N :: ext.
Proof.
  intros Hs He Hd. unfold suffix. rewrite rfind_dot_last by exact Hd.
  rewrite length_app. simpl length.
  destruct stem as [|c stem]; [contradiction|]. destruct ext as [|e ext]; [contradiction|].
  destruct (_ && _) eqn:E.
  - rewrite skipn_app, skipn_all, Nat.sub_diag. reflexivity.
  - exfalso. apply andb_false_iff in E.
    destruct E as [E|E]; apply Nat.ltb_ge in E; simpl in E; lia.
Qed.

Lemma lower_no_dot (ext : text) : ~ In 46%N (lower ext) -> ~ In 46%N ext.
Proof.
  intros H Hin. apply H. unfold lower. apply in_map_iff. exists 46%N. split; [reflexivity|exact Hin].
Qed.

Lemma suffix_no_dot (name : text) : ~ In 46%N name -> suffix name = [].
Proof. intro H. unfold suffix. rewrite rfind_dot_none by exact H. reflexivity. Qed.

Lemma suffix_hidden (ext : text) : ~ In 46%N ext -> suffix (46%N :: ext) = [].
Proof.
  intro H. unfold suffix. simpl. rewrite rfind_dot_none by exact H. reflexivity.
Qed.

End ExportFacts.

Section OcrFacts.
Import Extract Boxes Exports Parallel Ocr.
Variable image : Type.
Variable image_to_string : image -> text + tess_error.
Variable image_to_data : image -> list tess_row + tess_error.
Variable mentions_timeout : text -> bool.

Lemma page_matches_fields (file : text) (page_no : Z) (qs : list text) (threshold : Z)
    (mk : VoterInfo -> SearchResult) (voters : list VoterInfo) :
  (forall v, r_page (mk v) = page_no /\ r_file (mk v) = file) ->
  forall x, In x (page_matches file page_no qs threshold mk voters) -> r_page x = page_no /\ r_file x = file.
Proof.
  intros Hmk x Hx. unfold page_matches in Hx.
  apply in_flat_map in Hx as [v [_ Hx]]. apply in_flat_map in Hx as [q [_ Hx]].
  destruct (Match.fuzzy_match (name v) q threshold); [|contradiction].
  destruct Hx as [<-|[]]. apply Hmk.
Qed.

Lemma process_page_fields file qs threshold box_level min_confidence page_no img rs :
  process_page image image_to_string image_to_data mentions_timeout file qs threshold box_level
    min_confidence page_no img = PageOk rs ->
  forall x, In x rs -> r_page x = page_no /\ r_file x = file.
Proof.
  unfold process_page. intro H.
  destruct box_level.
  - destruct (extract_ocr_data (image_to_data img) min_confidence) as [ws|msg].
    + injection H as <-. apply page_matches_fields. intro v. split; reflexivity.
    + destruct (mentions_timeout msg); discriminate.
  - destruct (image_to_string img) as [s|[|m|m]].
    + injection H as <-. apply page_matches_fields. intro v. split; reflexivity.
    + discriminate.
    + destruct (mentions_timeout m); discriminate.
    + discriminate.
Qed.

Lemma Forall_le_map (l : list SearchResult) (a : Z) :
  (forall x, In x l -> (a <= r_page x)%Z) -> Forall (Z.le a) (map r_page l).
Proof.
  intro H. apply Forall_forall. intros y Hy. apply in_map_iff in Hy as [x [<- Hx]]. apply H, Hx.
Qed.

Lemma sorted_app_pages (l1 l2 : list SearchResult) (a : Z) :
  (forall x, In x l1 -> r_page x = a) -> (forall x, In x l2 -> (a <= r_page x)%Z) ->
  StronglySorted Z.le (map r_page l2) -> StronglySorted Z.le (map r_page (l1 ++ l2)).
Proof.
  induction l1 as [|y l1 IH]; intros H1 H2 S2; simpl; [exact S2|].
  constructor.
  - apply IH; [intros x Hx; apply H1; right; exact Hx|exact H2|exact S2].
  - apply Forall_le_map. intros x Hx.
    rewrite (H1 y (or_introl eq_refl)). apply in_app_or in Hx as [Hx|Hx].
    + rewrite (H1 x (or_intror Hx)). lia.
    + apply H2, Hx.
Qed.

Lemma page_loop_spec file qs threshold box_level min_confidence (images : list image) :
  forall page_no results st,
  let '(r, st') := page_loop image image_to_string image_to_data mentions_timeout file qs threshold
                     box_level min_confidence page_no images results st in
  files_processed st' = files_processed st /\ files_failed st' = files_failed st /\
  errors st' = errors st /\
  pages_processed st <= pages_processed st' <= pages_processed st + length images /\
  matches_found st <= matches_found st' /\
  (forall rs, r = inl rs -> exists fresh, rs = results ++ fresh /\
     matches_found st' = matches_found st + length fresh /\
     (forall x, In x fresh -> (page_no <= r_page x < page_no + Z.of_nat (length images))%Z /\ r_file x = file) /\
     StronglySorted Z.le (map r_page fresh)).
Proof.
  induction images as [|img rest IH]; intros page_no results st; simpl.
  - repeat split; try lia.
    intros rs H. injection H as <-. exists []. rewrite app_nil_r.
    split; [reflexivity|]. split; [simpl; lia|]. split; [intros x []|constructor].
  - destruct (process_page image image_to_string image_to_data mentions_timeout file qs threshold
                box_level min_confidence page_no img) as [rs0| |msg] eqn:Ep.
    + specialize (IH (page_no + 1)%Z (results ++ rs0) (bump_page st (length rs0))).
      destruct (page_loop _ _ _ _ _ _ _ _ _ _ rest _ _) as [r st'].
      destruct IH as (H1 & H2 & H3 & H4 & H5 & H6). simpl in *.
      repeat split; try lia; try congruence.
      intros rs Hr. destruct (H6 rs Hr) as (fresh & E & Hm & Hf & Hs).
      exists (rs0 ++ fresh). rewrite app_assoc. split; [exact E|].
      pose proof (process_page_fields _ _ _ _ _ _ _ _ Ep) as Hp.
      split; [rewrite Hm, length_app; lia|]. split.
      * intros x Hx. apply in_app_or in Hx as [Hx|Hx].
        -- destruct (Hp x Hx) as [-> ->]. split; [lia|reflexivity].
        -- destruct (Hf x Hx) as [Hb ->]. split; [lia|reflexivity].
      * apply (sorted_app_pages _ _ page_no); [intros x Hx; apply (Hp x Hx)| |exact Hs].
        intros x Hx. destruct (Hf x Hx). lia.
    + specialize (IH (page_no + 1)%Z results st).
      destruct (page_loop _ _ _ _ _ _ _ _ _ _ rest _ _) as [r st'].
      destruct IH as (H1 & H2 & H3 & H4 & H5 & H6).
      repeat split; try lia; try congruence.
      intros rs Hr. destruct (H6 rs Hr) as (fresh & E & Hm & Hf & Hs).
      exists fresh. split; [exact E|]. split; [exact Hm|]. split; [|exact Hs].
      intros x Hx. destruct (Hf x Hx). split; [lia|assumption].
    + repeat split; try lia. discriminate.
Qed.

Lemma page_loop_raises file qs threshold min_confidence (images : list image) img :
  In img images ->
  (exists e, image_to_data img = inr e /\
     mentions_timeout (match e with
                       | TesseractNotFound => Messages.tesseract_not_found
                       | _ => Messages.ocr_extraction_failed ++ tess_msg e end) = false) ->
  forall page_no results st,
  exists msg st', page_loop image image_to_string image_to_data mentions_timeout file qs threshold
                    true min_confidence page_no images results st = (inr msg, st').
Proof.
  intros Hin [e [He Ht]].
  induction images as [|i rest IH]; [destruct Hin|]. intros page_no results st. cbn [page_loop].
  destruct Hin as [->|Hin].
  - unfold process_page at 1. unfold extract_ocr_data at 1. rewrite He.
    destruct e; rewrite Ht; eexists; eexists; reflexivity.
  - destruct (process_page _ _ _ _ _ _ _ _ _ _ _) as [rs| |msg].
    + apply IH, Hin.
    + apply IH, Hin.
    + eexists; eexists; reflexivity.
Qed.

Lemma page_loop_text_returns file qs threshold min_confidence (images : list image) :
  (forall img, In img images -> forall e, image_to_string img = inr e ->
     exists m, e = TessOtherError m) ->
  forall page_no results st,
  exists rs st', page_loop image image_to_string image_to_data mentions_timeout file qs threshold
                   false min_confidence page_no images results st = (inl rs, st').
Proof.
  intro Hok. induction images as [|i rest IH]; intros page_no results st; cbn [page_loop].
  - eexists; eexists; reflexivity.
  - assert (Hrest : forall img, In img rest -> forall e, image_to_string img = inr e ->
                      exists m, e = TessOtherError m)
      by (intros img Hi; apply Hok; right; exact Hi).
    unfold process_page at 1.
    destruct (image_to_string i) as [s|e] eqn:Ei.
    + apply IH, Hrest.
    + destruct (Hok i (or_introl eq_refl) e Ei) as [m ->]. apply IH, Hrest.
Qed.

Lemma keep_rows_spec (min_confidence : Q) (rows : list tess_row) :
  forall w, In w (keep_rows min_confidence rows) ->
  w_text w <> [] /\ (min_confidence <= w_confidence w)%Q /\
  exists r, In r rows /\ w_text w = strip (t_text r) /\ w_confidence w = t_conf r.
Proof.
  induction rows as [|r rows IH]; simpl; [intros w []|].
  intros w Hw. unfold keep_row in Hw.
  destruct (is_nil (strip (t_text r))) eqn:En; simpl in Hw.
  - destruct (IH w Hw) as (A & B & r' & Hr' & C). repeat split; try assumption.
    exists r'. split; [right; exact Hr'|exact C].
  - destruct (Qle_bool min_confidence (t_conf r)) eqn:Eq; simpl in Hw.
    + destruct Hw as [<-|Hw].
      * simpl. split; [intro H; rewrite H in En; discriminate|].
        split; [apply Qle_bool_iff; exact Eq|]. exists r. split; [left; reflexivity|split; reflexivity].
      * destruct (IH w Hw) as (A & B & r' & Hr' & C). repeat split; try assumption.
        exists r'. split; [right; exact Hr'|exact C].
    + destruct (IH w Hw) as (A & B & r' & Hr' & C). repeat split; try assumption.
      exists r'. split; [right; exact Hr'|exact C].
Qed.

Lemma keep_rows_length (min_confidence : Q) (rows : list tess_row) :
  length (keep_rows min_confidence rows) =
  length (filter (fun r => negb (is_nil (strip (t_text r))) && Qle_bool min_confidence (t_conf r)) rows).
Proof.
  induction rows as [|r rows IH]; simpl; [reflexivity|].
  unfold keep_row. destruct (is_nil (strip (t_text r))), (Qle_bool min_confidence (t_conf r));
    simpl; rewrite ?IH; reflexivity.
Qed.

End OcrFacts.

Lemma in_firstn_in {A} (k : nat) (l : list A) x : In x (firstn k l) -> In x l.
Proof.
  intro H. rewrite <- (firstn_skipn k l). apply in_or_app. left. exact H.
Qed.

Lemma in_firstn_map_seq {A} (f : nat -> A) (n : nat) :
  forall start k i, i < k -> i < n -> In (f (start + i)) (firstn k (map f (seq start n))).
Proof.
  induction n as [|n IH]; intros start k i Hk Hn; [lia|].
  destruct k as [|k]; [lia|]. simpl.
  destruct i as [|i].
  - left. f_equal. lia.
  - right. replace (start + S i) with (S start + i) by lia. apply IH; lia.
Qed.

Lemma truncated_pages {A} (f : nat -> A) (n : nat) (m : Z) :
  (0 <= m)%Z ->
  let images := map f (seq 0 n) in
  let images := if (Z.of_nat (length images) >? m)%Z then Ocr.py_take m images else images in
  length images = Nat.min n (Z.to_nat m) /\
  (forall x, In x images -> exists i, i < n /\ x = f i) /\
  (forall i, i < n -> (Z.of_nat i < m)%Z -> In (f i) images).
Proof.
  intros Hm images images'. unfold images', images, Ocr.py_take.
  rewrite length_map, length_seq.
  assert (Hall : forall x, In x (map f (seq 0 n)) -> exists i, i < n /\ x = f i).
  { intros x Hx. apply in_map_iff in Hx as [i [<- Hi]]. apply in_seq in Hi.
    exists i. split; [lia|reflexivity]. }
  destruct (Z.of_nat n >? m)%Z eqn:E.
  - apply Z.gtb_lt in E. replace (0 <=? m)%Z with true by (symmetry; apply Z.leb_le; exact Hm).
    split; [rewrite length_firstn, length_map, length_seq; lia|]. split.
    + intros x Hx. apply Hall. exact (in_firstn_in _ _ _ Hx).
    + intros i Hi Him. apply (in_firstn_map_seq f n 0 (Z.to_nat m) i); lia.
  - rewrite Z.gtb_ltb in E. apply Z.ltb_ge in E.
    split; [rewrite length_map, length_seq; lia|]. split; [exact Hall|].
    intros i Hi _. apply in_map. apply in_seq. lia.
Qed.

Lemma combined_bbox_contains_aux (ws : list Boxes.OCRWord) :
  ws <> [] ->
  let b := Boxes.get_combined_bbox ws in
  (forall w, In w ws ->
     (Extract.left b <= Extract.left (Boxes.w_bbox w))%Z /\ (Extract.top b <= Extract.top (Boxes.w_bbox w))%Z /\
     (Extract.left (Boxes.w_bbox w) + Extract.width (Boxes.w_bbox w) <= Extract.left b + Extract.width b)%Z /\
     (Extract.top (Boxes.w_bbox w) + Extract.height (Boxes.w_bbox w) <= Extract.top b + Extract.height b)%Z) /\
  (exists w, In w ws /\ Extract.left (Boxes.w_bbox w) = Extract.left b) /\
  (exists w, In w ws /\ Extract.top (Boxes.w_bbox w) = Extract.top b).
Proof.
  intros Hne b. destruct ws as [|w0 ws']; [contradiction|].
  unfold b, Boxes.get_combined_bbox. cbv beta iota zeta.
  set (ws := w0 :: ws').
  split.
  - intros w Hw.
    destruct (fold_min_le (map (fun w => Extract.left (Boxes.w_bbox w)) ws) (Extract.left (Boxes.w_bbox w0))) as [_ Hl].
    destruct (fold_min_le (map (fun w => Extract.top (Boxes.w_bbox w)) ws) (Extract.top (Boxes.w_bbox w0))) as [_ Ht].
    destruct (fold_max_ge (map (fun w => Extract.left (Boxes.w_bbox w) + Extract.width (Boxes.w_bbox w))%Z ws)
                (Extract.left (Boxes.w_bbox w0) + Extract.width (Boxes.w_bbox w0))%Z) as [_ Hr].
    destruct (fold_max_ge (map (fun w => Extract.top (Boxes.w_bbox w) + Extract.height (Boxes.w_bbox w))%Z ws)
                (Extract.top (Boxes.w_bbox w0) + Extract.height (Boxes.w_bbox w0))%Z) as [_ Hb].
    specialize (Hl _ (in_map (fun w => Extract.left (Boxes.w_bbox w)) _ _ Hw)).
    specialize (Ht _ (in_map (fun w => Extract.top (Boxes.w_bbox w)) _ _ Hw)).
    specialize (Hr _ (in_map (fun w => Extract.left (Boxes.w_bbox w) + Extract.width (Boxes.w_bbox w))%Z _ _ Hw)).
    specialize (Hb _ (in_map (fun w => Extract.top (Boxes.w_bbox w) + Extract.height (Boxes.w_bbox w))%Z _ _ Hw)).
    cbn [Extract.left Extract.top Extract.width Extract.height]. lia.
  - split.
    + destruct (fold_min_attained (map (fun w => Extract.left (Boxes.w_bbox w)) ws) (Extract.left (Boxes.w_bbox w0))) as [H|H].
      * exists w0. split; [left; reflexivity|]. simpl. symmetry. exact H.
      * apply in_map_iff in H as [w [Hw Hin]]. exists w. split; [exact Hin|exact Hw].
    + destruct (fold_min_attained (map (fun w => Extract.top (Boxes.w_bbox w)) ws) (Extract.top (Boxes.w_bbox w0))) as [H|H].
      * exists w0. split; [left; reflexivity|]. simpl. symmetry. exact H.
      * apply in_map_iff in H as [w [Hw Hin]]. exists w. split; [exact Hin|exact Hw].
Qed.

Lemma truncated_subset {A} (f : nat -> A) (n : nat) (m : Z) :
  let images := map f (seq 0 n) in
  let images := if (Z.of_nat (length images) >? m)%Z then Ocr.py_take m images else images in
  forall x, In x images -> exists i, i < n /\ x = f i.
Proof.
  intros images images' x Hx.
  assert (Hall : forall x, In x (map f (seq 0 n)) -> exists i, i < n /\ x = f i).
  { intros y Hy. apply in_map_iff in Hy as [i [<- Hi]]. apply in_seq in Hi.
    exists i. split; [lia|reflexivity]. }
  apply Hall. unfold images', images, Ocr.py_take in Hx.
  destruct (_ >? _)%Z; [|exact Hx].
  destruct (0 <=? m)%Z; exact (in_firstn_in _ _ _ Hx).
Qed.




Lemma strip_nil_is_nil (s : text) : is_nil (strip s) = true <-> strip s = [].
Proof. destruct (strip s); simpl; split; congruence. Qed.




Section PdfCounts.
Import Exports Parallel Ocr.
Variable image : Type.
Variable image_to_string : image -> text + tess_error.
Variable image_to_data : image -> list tess_row + tess_error.
Variable page_image : nat -> image.
Variable mentions_timeout : text -> bool.
Variable error_line : pdf_failure -> text.

Lemma process_pdf_counts (MAX_PDF_SIZE_MB MAX_PDF_PAGES : Z) (entry : Validation.fs_entry)
    (conv : conversion) (file : text) (search_names : list text) (threshold : Z)
    (st : ProcessingStats) (box_level : bool) (min_confidence : Q) :
  let '(o, st') := process_pdf image image_to_string image_to_data page_image mentions_timeout
                     error_line MAX_PDF_SIZE_MB MAX_PDF_PAGES entry conv file search_names
                     threshold st box_level min_confidence in
  ((files_processed st' = S (files_processed st) /\ files_failed st' = files_failed st /\
    errors st' = errors st /\
    exists rs, o = PdfReturned rs /\ matches_found st' = matches_found st + length rs)
   \/
   (files_processed st' = files_processed st /\ files_failed st' = S (files_failed st) /\
    (o = PdfRaised \/ o = PdfReturned []) /\
    exists line, errors st' = errors st ++ [line])) /\
  matches_found st <= matches_found st' /\ pages_processed st <= pages_processed st'.
Proof.
  unfold process_pdf.
  destruct (Validation.validate_pdf_file MAX_PDF_SIZE_MB entry).
  2, 3: simpl; split; [right; split; [reflexivity|split; [reflexivity|
    split; [first [left; reflexivity|right; reflexivity]|eexists; reflexivity]]]|split; lia].
  destruct conv as [n| | |msg].
  2, 3, 4: simpl; split; [right; split; [reflexivity|split; [reflexivity|
    split; [left; reflexivity|eexists; reflexivity]]]|split; lia].
  match goal with |- context [page_loop _ _ _ _ ?f ?q ?t ?b ?m 1%Z ?imgs [] st] =>
    pose proof (ExtraFacts.page_loop_spec image image_to_string image_to_data mentions_timeout
                  f q t b m imgs 1%Z [] st) as H;
    destruct (page_loop _ _ _ _ f q t b m 1%Z imgs [] st) as [[rs|msg] st'] end;
  destruct H as (H1 & H2 & H3 & H4 & H5 & H6).
  - simpl. destruct (H6 rs eq_refl) as (fresh & -> & Hm & _). split; [|split; lia].
    left. split; [lia|]. split; [lia|]. split; [exact H3|].
    exists fresh. split; [reflexivity|exact Hm].
  - simpl. split; [|split; lia]. right. split; [lia|]. split; [lia|].
    split; [left; reflexivity|]. rewrite H3. eexists; reflexivity.
Qed.
End PdfCounts.

Section CacheHit.
Variable sha256_hex : list N -> text.
Variable encode : text -> list N.
Variable str_int : Z -> text.
Variable SR : Type.

Lemma get_hit_store (self : Cache.ResultCache) (fs : Cache.docs) (st : Cache.store SR) (now : Z)
    (p : Cache.path) (qs : list text) (threshold : Z) (l : list SR) :
  fst (Cache.get sha256_hex encode str_int SR self fs st now p qs threshold) = Cache.Returned (Some l) ->
  snd (Cache.get sha256_hex encode str_int SR self fs st now p qs threshold) = st.
Proof.
  unfold Cache.get.
  destruct (fs p) as [bytes|]; [|discriminate].
  destruct (st _) as [f|]; [|discriminate].
  destruct (_ >? _)%Z; [discriminate|].
  destruct (Cache.body SR f) as [| | |[ver|] r]; try discriminate.
  destruct (text_eqb ver Cache.CACHE_VERSION); [reflexivity|discriminate].
Qed.
End CacheHit.

Section SequentialFacts.
Import Exports Parallel Ocr.
Variable sha256_hex : list N -> text.
Variable encode : text -> list N.
Variable str_int : Z -> text.
Variable image : Type.
Variable image_to_string : image -> text + tess_error.
Variable image_to_data : image -> list tess_row + tess_error.
Variable mentions_timeout : text -> bool.
Variable MAX_PDF_SIZE_MB MAX_PDF_PAGES : Z.
Variable name_of : text -> text.
Variable doc_entry : text -> Validation.fs_entry.
Variable doc_conv : text -> conversion.
Variable doc_page : text -> nat -> image.
Variable doc_error_line : text -> pdf_failure -> text.
Variable fs : Cache.docs.
Variable clock_get clock_set : text -> Z.
Variable write : text -> Cache.write_result.

Abbreviation loop := (Cli.sequential_loop sha256_hex encode str_int image image_to_string image_to_data
  mentions_timeout MAX_PDF_SIZE_MB MAX_PDF_PAGES name_of doc_entry doc_conv doc_page doc_error_line
  fs clock_get clock_set write).
Abbreviation run := (Cli.run_pdf image image_to_string image_to_data mentions_timeout MAX_PDF_SIZE_MB
  MAX_PDF_PAGES name_of doc_entry doc_conv doc_page doc_error_line).

Lemma run_pdf_counts p qs threshold st box min :
  let '(o, st') := run p qs threshold st box min in
  ((files_processed st' = S (files_processed st) /\ files_failed st' = files_failed st /\
    errors st' = errors st /\
    exists rs, o = PdfReturned rs /\ matches_found st' = matches_found st + length rs)
   \/
   (files_processed st' = files_processed st /\ files_failed st' = S (files_failed st) /\
    (o = PdfRaised \/ o = PdfReturned []) /\
    exists line, errors st' = errors st ++ [line])) /\
  matches_found st <= matches_found st'.
Proof.
  unfold Cli.run_pdf.
  pose proof (process_pdf_counts image image_to_string image_to_data (doc_page p) mentions_timeout
                (doc_error_line p) MAX_PDF_SIZE_MB MAX_PDF_PAGES (doc_entry p) (doc_conv p)
                (name_of p) qs threshold st box min) as H.
  destruct (process_pdf _ _ _ _ _ _ _ _ _ _ _ _ _ _ _ _) as [o st'].
  destruct H as [H [H' _]]. split; [exact H|exact H'].
Qed.

Lemma sequential_loop_spec cache files qs threshold box min :
  forall all stats store,
  let '(res, st', store') := loop cache files qs threshold box min all stats store in
  (exists more, res = all ++ more /\
     (cache = None -> matches_found stats + length more <= matches_found st')) /\
  files_processed st' + files_failed st' <= files_processed stats + files_failed stats + length files /\
  (cache = None ->
     files_processed st' + files_failed st' = files_processed stats + files_failed stats + length files) /\
  (exists ls, errors st' = errors stats ++ ls /\ files_failed stats + length ls = files_failed st') /\
  matches_found stats <= matches_found st'.
Proof.
  induction files as [|p rest IH]; intros all stats store.
  - simpl. split; [exists []; split; [rewrite app_nil_r; reflexivity|intros; simpl; lia]|].
    split; [lia|]. split; [intros; lia|]. split; [|lia].
    exists []. split; [rewrite app_nil_r; reflexivity|simpl; lia].
  - cbn [Cli.sequential_loop length].
    assert (Hcase : forall store1,
      let '(res, st', store') :=
        match run p qs threshold stats box min with
        | (PdfRaised, stats') => loop cache rest qs threshold box min all stats' store1
        | (PdfReturned results, stats') =>
            match cache with
            | Some _ =>
                let '(_, store') :=
                  Cache.set sha256_hex encode str_int SearchResult fs store1 (clock_set p)
                    (write p) p qs threshold results in
                loop cache rest qs threshold box min (all ++ results) stats' store'
            | None => loop cache rest qs threshold box min (all ++ results) stats' store1
            end
        end in
      (exists more, res = all ++ more /\
         (cache = None -> matches_found stats + length more <= matches_found st')) /\
      files_processed st' + files_failed st' <= files_processed stats + files_failed stats + S (length rest) /\
      (cache = None ->
         files_processed st' + files_failed st' = files_processed stats + files_failed stats + S (length rest)) /\
      (exists ls, errors st' = errors stats ++ ls /\ files_failed stats + length ls = files_failed st') /\
      matches_found stats <= matches_found st').
    { intro store1.
      pose proof (run_pdf_counts p qs threshold stats box min) as Hr.
      destruct (run p qs threshold stats box min) as [o st1].
      assert (Hu : files_processed st1 + files_failed st1 = S (files_processed stats + files_failed stats) /\
                   (exists ls0, errors st1 = errors stats ++ ls0 /\ files_failed stats + length ls0 = files_failed st1) /\
                   matches_found stats <= matches_found st1 /\
                   (o = PdfRaised \/ exists rs, o = PdfReturned rs /\
                      matches_found stats + length rs <= matches_found st1)).
      { destruct Hr as [[(Hp & Hf & He & rs & -> & Hm) | (Hp & Hf & Ho & line & He)] Hmono].
        - split; [lia|]. split; [exists []; split; [rewrite He, app_nil_r; reflexivity|simpl; lia]|].
          split; [exact Hmono|]. right. exists rs. split; [reflexivity|lia].
        - split; [lia|]. split; [exists [line]; split; [exact He|simpl; lia]|].
          split; [exact Hmono|]. destruct Ho as [-> | ->]; [left; reflexivity|].
          right. exists []. split; [reflexivity|simpl; lia]. }
      clear Hr. destruct Hu as (Hpf & (ls0 & He0 & Hl0) & Hmono & Ho).
      assert (Hk : forall rs store2, matches_found stats + length rs <= matches_found st1 ->
          let '(res, st', store') := loop cache rest qs threshold box min (all ++ rs) st1 store2 in
          (exists more, res = all ++ more /\
             (cache = None -> matches_found stats + length more <= matches_found st')) /\
          files_processed st' + files_failed st' <= files_processed stats + files_failed stats + S (length rest) /\
          (cache = None ->
             files_processed st' + files_failed st' = files_processed stats + files_failed stats + S (length rest)) /\
          (exists ls, errors st' = errors stats ++ ls /\ files_failed stats + length ls = files_failed st') /\
          matches_found stats <= matches_found st').
      { intros rs store2 Hm. pose proof (IH (all ++ rs) st1 store2) as H.
        destruct (loop cache rest qs threshold box min (all ++ rs) st1 store2) as [[res st'] store'].
        destruct H as ((more & -> & Hmore) & H2 & H3 & (ls & Hls & Hlen) & H5).
        split; [exists (rs ++ more); split; [rewrite app_assoc; reflexivity|]|].
        { intro Hc. specialize (Hmore Hc). rewrite length_app. lia. }
        split; [lia|]. split; [intro Hc; specialize (H3 Hc); lia|].
        split; [|lia]. exists (ls0 ++ ls). split; [rewrite Hls, He0, app_assoc; reflexivity|].
        rewrite length_app. lia. }
      destruct Ho as [-> | (rs & -> & Hm)].
      - pose proof (Hk [] store1 ltac:(simpl; lia)) as K. rewrite app_nil_r in K. exact K.
      - destruct cache as [c|].
        + destruct (Cache.set _ _ _ _ _ _ _ _ _ _ _ _) as [u store2]. exact (Hk rs store2 Hm).
        + exact (Hk rs store1 Hm). }
    destruct cache as [c|]; [|exact (Hcase store)].
    destruct (Cache.get _ _ _ _ _ _ _ _ _ _ _) as [[[cached|]|] store1] eqn:Eg.
    + pose proof (IH (all ++ cached) (Cli.files_processed_inc stats) store1) as H.
      destruct (loop _ rest qs threshold box min (all ++ cached) _ store1) as [[res st'] store'].
      destruct H as ((more & -> & _) & H2 & _ & (ls & Hls & Hlen) & H5).
      cbn [Cli.files_processed_inc files_processed files_failed errors matches_found] in *.
      split; [exists (cached ++ more); split; [rewrite app_assoc; reflexivity|discriminate]|].
      split; [lia|]. split; [discriminate|]. split; [exists ls; split; [exact Hls|lia]|lia].
    + exact (Hcase store1).
    + pose proof (IH all stats store1) as H.
      destruct (loop _ rest qs threshold box min all stats store1) as [[res st'] store'].
      destruct H as ((more & -> & _) & H2 & _ & H4 & H5).
      split; [exists more; split; [reflexivity|discriminate]|].
      split; [lia|]. split; [discriminate|]. split; [exact H4|exact H5].
Qed.
End SequentialFacts.

End ExtraFacts.

Module Extras.
Import Text Extract Fuzz Boxes Samples ExtraFacts.

(** [get_optimal_workers] always returns a count between 1 and the CPU
    count (for a machine with at least one CPU), and returns the requested
    count unchanged when it already lies in that range. *)
Theorem optimal_workers_bounds (max_workers : option Z) (cpu : Z) :
  (1 <= cpu)%Z ->
  (1 <= Workers.get_optimal_workers max_workers cpu <= cpu)%Z /\
  (forall w, max_workers = Some w -> (1 <= w <= cpu)%Z ->
             Workers.get_optimal_workers max_workers cpu = w).
Proof.
  intro Hcpu. unfold Workers.get_optimal_workers.
  split; [destruct max_workers; lia|].
  intros w -> Hw. lia.
Qed.

Lemma optimal_workers_bounds_witness :
  (1 <= 8)%Z /\ (1 <= Workers.get_optimal_workers None 8 <= 8)%Z.
Proof.
  assert (H : (1 <= 8)%Z) by lia.
  split; [exact H|exact (proj1 (optimal_workers_bounds None 8 H))].
Defined.

(** [_get_combined_bbox] of a non-empty word list is the smallest
    rectangle holding every word's box: it contains each box, and its left
    and top edges are those of some word (or of the first word). *)
Theorem combined_bbox_contains (ws : list OCRWord) :
  ws <> [] ->
  let b := get_combined_bbox ws in
  (forall w, In w ws ->
     (left b <= left (w_bbox w))%Z /\ (top b <= top (w_bbox w))%Z /\
     (left (w_bbox w) + width (w_bbox w) <= left b + width b)%Z /\
     (top (w_bbox w) + height (w_bbox w) <= top b + height b)%Z) /\
  (exists w, In w ws /\ left (w_bbox w) = left b) /\
  (exists w, In w ws /\ top (w_bbox w) = top b).
Proof.
  exact (ExtraFacts.combined_bbox_contains_aux ws).
Qed.

Lemma combined_bbox_contains_witness :
  [word_rahim; word_rahima] <> [] /\
  (left (get_combined_bbox [word_rahim; word_rahima]) <= left (w_bbox word_rahima))%Z.
Proof.
  assert (H : [word_rahim; word_rahima] <> []) by discriminate.
  split; [exact H|].
  exact (proj1 (proj1 (combined_bbox_contains [word_rahim; word_rahima] H) word_rahima
                  (or_intror (or_introl eq_refl)))).
Defined.

(** [ResultCache.clear] only ever deletes entry files: it returns a count
    of at most the number of listed files, the first [count] listed files
    are gone afterwards, and every unlisted file and every other entry is
    left as it was. *)
Theorem clear_only_deletes {SR : Type} (st : Cache.store SR) (files : list Cache.key) :
  let '(st', count) := CacheAdmin.clear SR st files in
  count <= length files /\
  (forall k, ~ In k files -> st' k = st k) /\
  (forall k, st' k = st k \/ st' k = None) /\
  (forall k, In k (firstn count files) -> st' k = None).
Proof.
  unfold CacheAdmin.clear.
  pose proof (ExtraFacts.clear_loop_effect SR files st 0) as H.
  destruct (CacheAdmin.clear_loop SR st files 0) as [st' n].
  rewrite Nat.sub_0_r in H. destruct H as ([_ Hn] & H). split; [exact Hn|exact H].
Qed.

(** When every listed file exists and can be unlinked (and the listing has
    no repeats, as a directory glob has), [ResultCache.clear] removes all of
    them and returns their number. *)
Theorem clear_removes_all {SR : Type} (st : Cache.store SR) (files : list Cache.key) :
  NoDup files ->
  (forall k, In k files -> exists f, st k = Some f /\ Cache.unlinkable SR f = true) ->
  snd (CacheAdmin.clear SR st files) = length files /\
  (forall k, In k files -> fst (CacheAdmin.clear SR st files) k = None).
Proof.
  intros Hnd Hall. unfold CacheAdmin.clear.
  exact (ExtraFacts.clear_loop_all SR files st 0 Hnd Hall).
Qed.

Lemma clear_removes_all_witness :
  NoDup AdminSamples.admin_files /\
  (forall k, In k AdminSamples.admin_files ->
     exists f, AdminSamples.admin_store k = Some f /\ Cache.unlinkable nat f = true) /\
  snd (CacheAdmin.clear nat AdminSamples.admin_store AdminSamples.admin_files) = 2.
Proof.
  assert (H1 : NoDup AdminSamples.admin_files).
  { constructor; [simpl; intros [H|[]]; discriminate|].
    constructor; [intros []|constructor]. }
  assert (H2 : forall k, In k AdminSamples.admin_files ->
     exists f, AdminSamples.admin_store k = Some f /\ Cache.unlinkable nat f = true).
  { intros k [<-|[<-|[]]]; eexists; split; vm_compute; reflexivity. }
  split; [exact H1|]. split; [exact H2|].
  exact (proj1 (clear_removes_all AdminSamples.admin_store AdminSamples.admin_files H1 H2)).
Defined.

(** [ResultCache.clear_expired] never deletes an entry that is not
    expired: an entry it removes had [now - mtime > ttl]. Beyond that it
    only deletes, never touches unlisted files, and counts at most the
    number of listed files. *)
Theorem clear_expired_keeps_fresh {SR : Type} (self : Cache.ResultCache) (now : Z)
    (st : Cache.store SR) (files : list Cache.key) :
  let '(st', count) := CacheAdmin.clear_expired SR self now st files in
  count <= length files /\
  (forall k, ~ In k files -> st' k = st k) /\
  (forall k, st' k = st k \/ st' k = None) /\
  (forall k f, st k = Some f -> st' k = None -> (Cache.ttl self < now - Cache.mtime SR f)%Z).
Proof.
  unfold CacheAdmin.clear_expired.
  pose proof (ExtraFacts.clear_expired_loop_effect SR self now files st 0) as H.
  destruct (CacheAdmin.clear_expired_loop SR self now st files 0) as [st' n].
  destruct H as ([_ Hn] & H). split; [exact Hn|exact H].
Qed.

(** When every listed file exists and can be unlinked (no repeats in the
    listing), [ResultCache.clear_expired] removes exactly the expired
    entries, leaves the others as they were, and returns the number of
    expired entries. *)
Theorem clear_expired_exact {SR : Type} (self : Cache.ResultCache) (now : Z)
    (st : Cache.store SR) (files : list Cache.key) :
  NoDup files ->
  (forall k, In k files -> exists f, st k = Some f /\ Cache.unlinkable SR f = true) ->
  snd (CacheAdmin.clear_expired SR self now st files)
    = length (filter (CacheAdmin.expired_at SR self now st) files) /\
  (forall k, In k files ->
     fst (CacheAdmin.clear_expired SR self now st files) k
       = if CacheAdmin.expired_at SR self now st k then None else st k).
Proof.
  intros Hnd Hall. unfold CacheAdmin.clear_expired.
  exact (ExtraFacts.clear_expired_loop_all SR self now files st 0 Hnd Hall).
Qed.

Lemma clear_expired_exact_witness :
  NoDup AdminSamples.admin_files /\
  (forall k, In k AdminSamples.admin_files ->
     exists f, AdminSamples.admin_store k = Some f /\ Cache.unlinkable nat f = true) /\
  snd (CacheAdmin.clear_expired nat Samples.default_cache (45 * 86400)
         AdminSamples.admin_store AdminSamples.admin_files) = 1.
Proof.
  assert (H1 : NoDup AdminSamples.admin_files).
  { constructor; [simpl; intros [H|[]]; discriminate|].
    constructor; [intros []|constructor]. }
  assert (H2 : forall k, In k AdminSamples.admin_files ->
     exists f, AdminSamples.admin_store k = Some f /\ Cache.unlinkable nat f = true).
  { intros k [<-|[<-|[]]]; eexists; split; vm_compute; reflexivity. }
  split; [exact H1|]. split; [exact H2|].
  rewrite (proj1 (clear_expired_exact Samples.default_cache (45 * 86400)
                    AdminSamples.admin_store AdminSamples.admin_files H1 H2)).
  vm_compute. reflexivity.
Defined.

(** [validate_pdf_file] accepts exactly the readable regular files of at
    most [MAX_PDF_SIZE_MB] MiB whose first five bytes are [%PDF-]; in
    particular it rejects every file shorter than five bytes. *)
Theorem validate_pdf_file_accepts (MAX_PDF_SIZE_MB : Z) (e : Validation.fs_entry) :
  (Validation.validate_pdf_file MAX_PDF_SIZE_MB e = Validation.VOk <->
   exists data, e = Validation.RegFile true data /\
     (Z.of_nat (length data) <= MAX_PDF_SIZE_MB * 1048576)%Z /\
     firstn 5 data = Validation.PDF_MAGIC) /\
  (forall r data, length data < 5 ->
     Validation.validate_pdf_file MAX_PDF_SIZE_MB (Validation.RegFile r data) <> Validation.VOk).
Proof.
  assert (Hiff : forall e, Validation.validate_pdf_file MAX_PDF_SIZE_MB e = Validation.VOk <->
   exists data, e = Validation.RegFile true data /\
     (Z.of_nat (length data) <= MAX_PDF_SIZE_MB * 1048576)%Z /\
     firstn 5 data = Validation.PDF_MAGIC).
  { intros [| |r data]; unfold Validation.validate_pdf_file.
    - split; [discriminate|intros [d [H _]]; discriminate].
    - split; [discriminate|intros [d [H _]]; discriminate].
    - split.
      + destruct (Qle_bool _ _) eqn:Es; [|discriminate].
        destruct r; [|discriminate].
        destruct (text_eqb _ _) eqn:Eh; [|discriminate].
        intros _. exists data. split; [reflexivity|]. split.
        * apply size_ok. exact Es.
        * apply CacheFacts.text_eqb_eq. exact Eh.
      + intros [d [Hd [Hs Hh]]]. injection Hd as -> ->.
        apply size_ok in Hs. rewrite Hs.
        apply CacheFacts.text_eqb_eq in Hh. rewrite Hh. reflexivity. }
  split; [exact (Hiff e)|].
  intros r data Hlen Hok. apply Hiff in Hok as [d [Hd [_ Hh]]].
  injection Hd as _ <-.
  apply (f_equal (@length N)) in Hh. rewrite length_firstn in Hh.
  unfold Validation.PDF_MAGIC in Hh. cbn [length] in Hh. lia.
Qed.

(** With a non-empty [base_dir], [validate_path_security] accepts a path
    exactly when its resolved form has the resolved base as a string
    prefix, so a sibling such as [/data/base2] passes a [/data/base]
    restriction; with no [base_dir] or an empty one, every path that
    resolves is accepted. *)
Theorem path_security_prefix_check (resolve : text -> option text) (path : text) :
  (forall base_dir r, base_dir <> [] ->
     (Validation.validate_path_security resolve path (Some base_dir) = Some r <->
      resolve path = Some r /\
      exists rb rest, resolve base_dir = Some rb /\ r = rb ++ rest)) /\
  Validation.validate_path_security resolve path None = resolve path /\
  Validation.validate_path_security resolve path (Some []) = resolve path.
Proof.
  unfold Validation.validate_path_security.
  split; [|split; destruct (resolve path); reflexivity].
  intros b r Hb. destruct b as [|c b]; [contradiction|].
  destruct (resolve path) as [rp|]; [|split; [discriminate|intros [H _]; discriminate]].
  destruct (resolve (c :: b)) as [rb|].
  2:{ split; [discriminate|intros [_ [rb' [rest [H _]]]]; discriminate]. }
  destruct (Validation.startswith rp rb) eqn:Es; split.
  - intros H. injection H as <-. split; [reflexivity|].
    apply startswith_spec in Es as [t Ht]. exists rb, t. split; [reflexivity|exact Ht].
  - intros [H [rb' [rest [Hrb Hr]]]]. injection H as <-. reflexivity.
  - discriminate.
  - intros [H [rb' [rest [Hrb Hr]]]]. injection H as <-. injection Hrb as <-.
    assert (Validation.startswith rp rb = true) by (apply startswith_spec; exists rest; exact Hr).
    congruence.
Qed.

(** [export_results] with format ["auto"] picks JSON for a name ending
    in [.json] and CSV for one ending in [.csv] (any letter case, non-empty
    stem), and raises [ValueError] without writing anything for a name
    with no dot or a dot-file such as [.json]; an explicit format other
    than ["auto"], ["json"] or ["csv"] (e.g. ["JSON"]) also raises. *)
Theorem export_format_choice (results : list Exports.SearchResult) (openable : bool) :
  (forall stem ext, stem <> [] -> Exports.lower ext = Exports.s_json ->
     Exports.export_results results (stem ++ 46%N :: ext) openable Exports.s_auto
     = Exports.ExportedJson (Exports.export_to_json openable results)) /\
  (forall stem ext, stem <> [] -> Exports.lower ext = Exports.s_csv ->
     Exports.export_results results (stem ++ 46%N :: ext) openable Exports.s_auto
     = Exports.ExportedCsv (fst (Exports.export_to_csv openable results))
                           (snd (Exports.export_to_csv openable results))) /\
  (forall name, ~ In 46%N name ->
     Exports.export_results results name openable Exports.s_auto = Exports.ExportValueError) /\
  (forall ext, ~ In 46%N ext ->
     Exports.export_results results (46%N :: ext) openable Exports.s_auto = Exports.ExportValueError) /\
  (forall name format, format <> Exports.s_auto -> format <> Exports.s_json -> format <> Exports.s_csv ->
     Exports.export_results results name openable format = Exports.ExportValueError).
Proof.
  assert (Hlow : forall ext, Exports.lower (46%N :: ext) = 46%N :: Exports.lower ext) by reflexivity.
  assert (Hne : forall ext t, Exports.lower ext = t -> t <> [] -> ext <> []).
  { intros ext t H Ht ->. apply Ht. rewrite <- H. reflexivity. }
  assert (Hnd : forall ext t, Exports.lower ext = t -> ~ In 46%N t -> ~ In 46%N ext).
  { intros ext t H Ht. apply ExtraFacts.lower_no_dot. rewrite H. exact Ht. }
  unfold Exports.export_results. rewrite CacheFacts.text_eqb_refl.
  split; [|split; [|split; [|split]]].
  - intros stem ext Hs He.
    rewrite ExtraFacts.suffix_last; [|exact Hs|apply (Hne ext _ He); discriminate|
      apply (Hnd ext _ He); simpl; intros [H|[H|[H|[H|[]]]]]; discriminate].
    rewrite Hlow, He. reflexivity.
  - intros stem ext Hs He.
    rewrite ExtraFacts.suffix_last; [|exact Hs|apply (Hne ext _ He); discriminate|
      apply (Hnd ext _ He); simpl; intros [H|[H|[H|[]]]]; discriminate].
    rewrite Hlow, He. simpl.
    destruct (Exports.export_to_csv openable results); reflexivity.
  - intros name Hn. rewrite ExtraFacts.suffix_no_dot by exact Hn. reflexivity.
  - intros ext Hn. rewrite ExtraFacts.suffix_hidden by exact Hn. reflexivity.
  - intros name format H1 H2 H3.
    destruct (text_eqb format Exports.s_auto) eqn:E1; [apply CacheFacts.text_eqb_eq in E1; contradiction|].
    destruct (text_eqb format Exports.s_json) eqn:E2; [apply CacheFacts.text_eqb_eq in E2; contradiction|].
    destruct (text_eqb format Exports.s_csv) eqn:E3; [apply CacheFacts.text_eqb_eq in E3; contradiction|].
    reflexivity.
Qed.

Lemma export_format_choice_witness :
  Exports.export_results [] [114; 46; 74; 83; 79; 78]%N true Exports.s_auto
  = Exports.ExportedJson true.
Proof.
  apply (proj1 (export_format_choice [] true) [114%N] [74; 83; 79; 78]%N);
    [discriminate|reflexivity].
Defined.

(** The CSV file [export_to_csv] writes starts with a header and has one
    row per written result, each with exactly one value per header column;
    the header has the four bbox columns exactly when some result has a
    [bbox] key and the [confidence] column exactly when some result has a
    [confidence] key. With no results the file is just the header
    [file,page,name,father]. *)
Theorem export_to_csv_layout (results : list Exports.SearchResult) :
  Exports.export_to_csv true [] = ([Exports.Header [Exports.F_file; Exports.F_page; Exports.F_name; Exports.F_father]], true) /\
  (results <> [] ->
   exists fieldnames rows,
     fst (Exports.export_to_csv true results) = Exports.Header fieldnames :: rows /\
     (forall l, In l rows -> exists cells, l = Exports.Row cells /\ length cells = length fieldnames) /\
     (snd (Exports.export_to_csv true results) = true -> length rows = length results) /\
     (In Exports.F_bbox_left fieldnames <-> exists r, In r results /\ Exports.r_bbox r <> None) /\
     (In Exports.F_confidence fieldnames <-> exists r, In r results /\ Exports.r_confidence r <> None)).
Proof.
  split; [reflexivity|].
  intro Hne. destruct results as [|r0 rs]; [contradiction|].
  unfold Exports.export_to_csv. simpl negb. cbv iota.
  set (rs' := r0 :: rs).
  set (hb := existsb (fun r => Exports.has_key (Exports.r_bbox r)) rs').
  set (hc := existsb (fun r => Exports.has_key (Exports.r_confidence r)) rs').
  fold (Exports.csv_fieldnames hb hc).
  pose proof (ExtraFacts.write_rows_spec hb hc rs') as W.
  destruct (Exports.write_rows (Exports.csv_fieldnames hb hc) hb hc rs') as [lines ok].
  destruct W as (Hl & _ & Hlen).
  exists (Exports.csv_fieldnames hb hc), lines.
  split; [reflexivity|]. split; [exact Hl|]. split; [exact Hlen|].
  split.
  - rewrite <- ExtraFacts.has_bbox_key. fold hb. unfold Exports.csv_fieldnames.
    destruct hb, hc; simpl; split; intro H; try reflexivity; try discriminate;
      try (repeat (destruct H as [H|H]; [discriminate|]); contradiction);
      repeat (first [left; reflexivity | right]).
  - rewrite <- ExtraFacts.has_conf_key. fold hc. unfold Exports.csv_fieldnames.
    destruct hb, hc; simpl; split; intro H; try reflexivity; try discriminate;
      try (repeat (destruct H as [H|H]; [discriminate|]); contradiction);
      repeat (first [left; reflexivity | right]).
Qed.


Lemma path_security_prefix_check_witness :
  Validation.validate_path_security (fun p => Some p) [47; 97; 47; 98; 50]%N (Some [47; 97; 47; 98]%N)
  = Some [47; 97; 47; 98; 50]%N.
Proof.
  assert (Hb : [47; 97; 47; 98]%N <> []) by discriminate.
  apply (proj2 (proj1 (path_security_prefix_check (fun p => Some p) [47; 97; 47; 98; 50]%N)
                  _ _ Hb)).
  split; [reflexivity|]. exists [47; 97; 47; 98]%N, [50%N]. split; reflexivity.
Defined.


(** [get_text_bounding_box] is [None] exactly for an empty word list;
    otherwise it is the box of [_get_combined_bbox], which holds every
    word's box. *)
Theorem text_bounding_box_contains (ws : list OCRWord) :
  (Ocr.get_text_bounding_box ws = None <-> ws = []) /\
  (forall b, Ocr.get_text_bounding_box ws = Some b ->
     b = get_combined_bbox ws /\
     forall w, In w ws ->
       (left b <= left (w_bbox w))%Z /\ (top b <= top (w_bbox w))%Z /\
       (left (w_bbox w) + width (w_bbox w) <= left b + width b)%Z /\
       (top (w_bbox w) + height (w_bbox w) <= top b + height b)%Z).
Proof.
  split.
  - destruct ws; simpl; split; congruence.
  - intros b Hb. destruct ws as [|w0 ws']; [discriminate|].
    injection Hb as <-. split; [reflexivity|].
    exact (proj1 (ExtraFacts.combined_bbox_contains_aux (w0 :: ws') ltac:(discriminate))).
Qed.

(** [extract_ocr_data] keeps exactly the Tesseract entries whose
    stripped text is non-empty and whose confidence is at least
    [min_confidence]: every word it returns has non-empty stripped text of
    some entry and a confidence [>= min_confidence], and their number is
    the number of such entries. *)
Theorem extract_ocr_data_kept (rows : list Ocr.tess_row) (min_confidence : Q) :
  exists ws, Ocr.extract_ocr_data (inl rows) min_confidence = inl ws /\
  (forall w, In w ws ->
     w_text w <> [] /\ (min_confidence <= w_confidence w)%Q /\
     exists r, In r rows /\ w_text w = strip (Ocr.t_text r) /\ w_confidence w = Ocr.t_conf r) /\
  length ws = length (filter (fun r => negb (Fuzz.is_nil (strip (Ocr.t_text r)))
                                       && Qle_bool min_confidence (Ocr.t_conf r)) rows).
Proof.
  exists (Ocr.keep_rows min_confidence rows). split; [reflexivity|].
  split; [apply ExtraFacts.keep_rows_spec|apply ExtraFacts.keep_rows_length].
Qed.

Section ProcessPdfFacts.
Import Exports Parallel Ocr.
Variable image : Type.
Variable image_to_string : image -> text + tess_error.
Variable image_to_data : image -> list tess_row + tess_error.
Variable page_image : nat -> image.
Variable mentions_timeout : text -> bool.
Variable error_line : pdf_failure -> text.

(** Every call of [process_pdf] counts the document once: either
    [files_processed] goes up by one, [stats.errors] is unchanged, it
    returns its results and [matches_found] goes up by their number; or
    [files_failed] goes up by one, one line is appended to
    [stats.errors], and it raises or returns no results. [matches_found]
    and [pages_processed] never go down. *)
Theorem process_pdf_accounting (MAX_PDF_SIZE_MB MAX_PDF_PAGES : Z) (entry : Validation.fs_entry)
    (conv : conversion) (file : text) (search_names : list text) (threshold : Z)
    (st : ProcessingStats) (box_level : bool) (min_confidence : Q) :
  let '(o, st') := process_pdf image image_to_string image_to_data page_image mentions_timeout
                     error_line MAX_PDF_SIZE_MB MAX_PDF_PAGES entry conv file search_names
                     threshold st box_level min_confidence in
  ((files_processed st' = S (files_processed st) /\ files_failed st' = files_failed st /\
    errors st' = errors st /\
    exists rs, o = PdfReturned rs /\ matches_found st' = matches_found st + length rs)
   \/
   (files_processed st' = files_processed st /\ files_failed st' = S (files_failed st) /\
    (o = PdfRaised \/ o = PdfReturned []) /\
    exists line, errors st' = errors st ++ [line])) /\
  matches_found st <= matches_found st' /\ pages_processed st <= pages_processed st'.
Proof.
  exact (ExtraFacts.process_pdf_counts image image_to_string image_to_data page_image
           mentions_timeout error_line MAX_PDF_SIZE_MB MAX_PDF_PAGES entry conv file search_names
           threshold st box_level min_confidence).
Qed.

(** With a non-negative [MAX_PDF_PAGES], [process_pdf] on a document of
    [n] pages OCRs at most [min(n, MAX_PDF_PAGES)] pages; the results it
    returns carry the document's name and page numbers between 1 and
    [min(n, MAX_PDF_PAGES)], in non-decreasing order. *)
Theorem process_pdf_pages (MAX_PDF_SIZE_MB MAX_PDF_PAGES : Z) (entry : Validation.fs_entry)
    (n : nat) (file : text) (search_names : list text) (threshold : Z)
    (st : ProcessingStats) (box_level : bool) (min_confidence : Q) :
  (0 <= MAX_PDF_PAGES)%Z ->
  let '(o, st') := process_pdf image image_to_string image_to_data page_image mentions_timeout
                     error_line MAX_PDF_SIZE_MB MAX_PDF_PAGES entry (Converted n) file search_names
                     threshold st box_level min_confidence in
  pages_processed st' <= pages_processed st + Nat.min n (Z.to_nat MAX_PDF_PAGES) /\
  (forall rs, o = PdfReturned rs ->
     Sorted Z.le (map r_page rs) /\
     forall x, In x rs ->
       (1 <= r_page x <= Z.of_nat (Nat.min n (Z.to_nat MAX_PDF_PAGES)))%Z /\ r_file x = file).
Proof.
  intro Hm. unfold process_pdf.
  destruct (Validation.validate_pdf_file MAX_PDF_SIZE_MB entry).
  2: { simpl. split; [lia|]. discriminate. }
  2: { simpl. split; [lia|]. intros rs H. injection H as <-. split; [constructor|intros x []]. }
  destruct (ExtraFacts.truncated_pages page_image n MAX_PDF_PAGES Hm) as (Hlen & _ & _).
  match goal with |- context [page_loop _ _ _ _ ?f ?q ?t ?b ?m 1%Z ?imgs [] st] =>
    pose proof (ExtraFacts.page_loop_spec image image_to_string image_to_data mentions_timeout
                  f q t b m imgs 1%Z [] st) as H;
    destruct (page_loop _ _ _ _ f q t b m 1%Z imgs [] st) as [[rs|msg] st'] end;
  destruct H as (H1 & H2 & H3 & H4 & H5 & H6); rewrite Hlen in H4.
  - simpl. split; [lia|]. intros rs' E. injection E as <-.
    destruct (H6 rs eq_refl) as (fresh & -> & _ & Hf & Hs). simpl.
    split; [apply StronglySorted_Sorted; exact Hs|].
    intros x Hx. destruct (Hf x Hx) as [Hp Hfile]. rewrite Hlen in Hp.
    split; [lia|exact Hfile].
  - simpl. split; [lia|]. discriminate.
Qed.

(** Box mode and text mode treat a failing page differently. In text
    mode, pages whose [image_to_string] raises something other than
    [TesseractNotFoundError] or a [RuntimeError] are skipped, so a valid,
    convertible document whose pages fail only that way is processed.
    In box mode [extract_ocr_data] turns every such failure into a
    [RuntimeError]: one page within the page limit whose
    [image_to_data] raises, with a message that does not mention a
    timeout, makes the whole document fail. *)
Theorem process_pdf_page_errors (MAX_PDF_SIZE_MB MAX_PDF_PAGES : Z) (entry : Validation.fs_entry)
    (n : nat) (file : text) (search_names : list text) (threshold : Z)
    (st : ProcessingStats) (min_confidence : Q) :
  Validation.validate_pdf_file MAX_PDF_SIZE_MB entry = Validation.VOk ->
  ((forall i, i < n -> forall e, image_to_string (page_image i) = inr e ->
      exists m, e = TessOtherError m) ->
   let '(o, st') := process_pdf image image_to_string image_to_data page_image mentions_timeout
                      error_line MAX_PDF_SIZE_MB MAX_PDF_PAGES entry (Converted n) file search_names
                      threshold st false min_confidence in
   (exists rs, o = PdfReturned rs) /\ files_processed st' = S (files_processed st)) /\
  (forall i e, i < n -> (Z.of_nat i < MAX_PDF_PAGES)%Z ->
   image_to_data (page_image i) = inr e ->
   mentions_timeout (match e with
                     | TesseractNotFound => Messages.tesseract_not_found
                     | _ => Messages.ocr_extraction_failed ++ tess_msg e end) = false ->
   let '(o, st') := process_pdf image image_to_string image_to_data page_image mentions_timeout
                      error_line MAX_PDF_SIZE_MB MAX_PDF_PAGES entry (Converted n) file search_names
                      threshold st true min_confidence in
   o = PdfRaised /\ files_failed st' = S (files_failed st)).
Proof.
  intro Hv. unfold process_pdf. rewrite Hv. split.
  - intro Hok.
    pose proof (ExtraFacts.truncated_subset page_image n MAX_PDF_PAGES) as Hsub.
    match goal with |- context [page_loop _ _ _ _ ?f ?q ?t ?b ?m 1%Z ?imgs [] st] =>
      assert (Hin : forall img, In img imgs -> forall e, image_to_string img = inr e ->
                      exists m, e = TessOtherError m)
        by (intros img Himg; destruct (Hsub img Himg) as [i [Hi ->]]; apply (Hok i Hi));
      destruct (ExtraFacts.page_loop_text_returns image image_to_string image_to_data
                  mentions_timeout f q t m imgs Hin 1%Z [] st) as (rs & st' & E);
      pose proof (ExtraFacts.page_loop_spec image image_to_string image_to_data mentions_timeout
                    f q t false m imgs 1%Z [] st) as P;
      rewrite E in P; destruct P as (P1 & _);
      rewrite E; simpl; split; [eexists; reflexivity|rewrite P1; reflexivity] end.
  - intros i e Hi Him He Ht.
    assert (Hm : (0 <= MAX_PDF_PAGES)%Z) by lia.
    destruct (ExtraFacts.truncated_pages page_image n MAX_PDF_PAGES Hm) as (_ & _ & Hin).
    match goal with |- context [page_loop _ _ _ _ ?f ?q ?t ?b ?m 1%Z ?imgs [] st] =>
      destruct (ExtraFacts.page_loop_raises image image_to_string image_to_data mentions_timeout
                  f q t m imgs (page_image i) (Hin i Hi Him) (ex_intro _ e (conj He Ht)) 1%Z [] st)
        as (msg & st' & E);
      pose proof (ExtraFacts.page_loop_spec image image_to_string image_to_data mentions_timeout
                    f q t true m imgs 1%Z [] st) as P;
      rewrite E in P; destruct P as (_ & P2 & _);
      rewrite E; simpl; split; [reflexivity|rewrite P2; reflexivity] end.
Qed.

End ProcessPdfFacts.

Lemma process_pdf_pages_witness :
  (0 <= 100)%Z /\
  Parallel.pages_processed
    (snd (Ocr.process_pdf unit (fun _ => inr (Ocr.TessOtherError [])) (fun _ => inr (Ocr.TessOtherError []))
            (fun _ => tt) (fun _ => false) (fun _ => []) 50 100
            (Validation.RegFile true Validation.PDF_MAGIC) (Ocr.Converted 3) [] [] 80
            (Parallel.MkStats 0 0 0 0 []) false 60))
  <= 0 + Nat.min 3 (Z.to_nat 100).
Proof.
  assert (Hm : (0 <= 100)%Z) by lia.
  split; [exact Hm|].
  pose proof (process_pdf_pages unit (fun _ => inr (Ocr.TessOtherError [])) (fun _ => inr (Ocr.TessOtherError []))
                (fun _ => tt) (fun _ => false) (fun _ => []) 50 100
                (Validation.RegFile true Validation.PDF_MAGIC) 3 [] [] 80
                (Parallel.MkStats 0 0 0 0 []) false 60 Hm) as H.
  destruct (Ocr.process_pdf _ _ _ _ _ _ _ _ _ _ _ _ _ _ _ _) as [o st'].
  exact (proj1 H).
Defined.

Lemma process_pdf_page_errors_witness :
  Validation.validate_pdf_file 50 (Validation.RegFile true Validation.PDF_MAGIC) = Validation.VOk /\
  fst (Ocr.process_pdf unit (fun _ => inr (Ocr.TessOtherError [])) (fun _ => inr (Ocr.TessOtherError []))
         (fun _ => tt) (fun _ => false) (fun _ => []) 50 100
         (Validation.RegFile true Validation.PDF_MAGIC) (Ocr.Converted 3) [] [] 80
         (Parallel.MkStats 0 0 0 0 []) true 60) = Ocr.PdfRaised.
Proof.
  assert (Hv : Validation.validate_pdf_file 50 (Validation.RegFile true Validation.PDF_MAGIC)
               = Validation.VOk) by (vm_compute; reflexivity).
  split; [exact Hv|].
  assert (Ht : (fun _ : text => false)
                 (match Ocr.TessOtherError [] with
                  | Ocr.TesseractNotFound => Ocr.Messages.tesseract_not_found
                  | _ => Ocr.Messages.ocr_extraction_failed ++ Ocr.tess_msg (Ocr.TessOtherError [])
                  end) = false) by reflexivity.
  pose proof (proj2 (process_pdf_page_errors unit (fun _ => inr (Ocr.TessOtherError []))
                       (fun _ => inr (Ocr.TessOtherError [])) (fun _ => tt) (fun _ => false)
                       (fun _ => []) 50 100 (Validation.RegFile true Validation.PDF_MAGIC) 3 [] [] 80
                       (Parallel.MkStats 0 0 0 0 []) 60 Hv)
                0 (Ocr.TessOtherError []) ltac:(lia) ltac:(lia) eq_refl Ht) as H.
  destruct (Ocr.process_pdf _ _ _ _ _ _ _ _ _ _ _ _ _ _ _ _) as [o st'].
  exact (proj1 H).
Defined.


Section CliFacts.
Import Exports Parallel Ocr.
Variable sha256_hex : list N -> text.
Variable encode : text -> list N.
Variable str_int : Z -> text.
Variable image : Type.
Variable image_to_string : image -> text + tess_error.
Variable image_to_data : image -> list tess_row + tess_error.
Variable mentions_timeout : text -> bool.
Variable MAX_PDF_SIZE_MB MAX_PDF_PAGES : Z.
Variable name_of : text -> text.
Variable doc_entry : text -> Validation.fs_entry.
Variable doc_conv : text -> conversion.
Variable doc_page : text -> nat -> image.
Variable doc_error_line : text -> pdf_failure -> text.
Variable fs : Cache.docs.
Variable clock_get clock_set : text -> Z.
Variable write : text -> Cache.write_result.

(** In [_process_sequential] every document is counted at most once in
    [files_processed] + [files_failed], and exactly once when no cache is
    used; each failure appends exactly one line to [stats.errors];
    [matches_found] never goes down, and without a cache it grows by at
    least the number of results returned. *)
Theorem sequential_counts (pdf_files search_names : list text) (threshold : Z)
    (stats : ProcessingStats) (cache : option Cache.ResultCache) (box_level : bool)
    (min_confidence : Q) (store : Cache.store SearchResult) :
  let '(res, st', store') :=
    Cli.process_sequential sha256_hex encode str_int image image_to_string image_to_data
      mentions_timeout MAX_PDF_SIZE_MB MAX_PDF_PAGES name_of doc_entry doc_conv doc_page
      doc_error_line fs clock_get clock_set write pdf_files search_names threshold stats cache
      box_level min_confidence store in
  files_processed st' + files_failed st' <=
    files_processed stats + files_failed stats + length pdf_files /\
  (cache = None ->
     files_processed st' + files_failed st' =
       files_processed stats + files_failed stats + length pdf_files /\
     matches_found stats + length res <= matches_found st') /\
  (exists ls, errors st' = errors stats ++ ls /\ files_failed stats + length ls = files_failed st') /\
  matches_found stats <= matches_found st'.
Proof.
  unfold Cli.process_sequential.
  pose proof (ExtraFacts.sequential_loop_spec sha256_hex encode str_int image image_to_string
                image_to_data mentions_timeout MAX_PDF_SIZE_MB MAX_PDF_PAGES name_of doc_entry
                doc_conv doc_page doc_error_line fs clock_get clock_set write cache pdf_files
                search_names threshold box_level min_confidence [] stats store) as H.
  destruct (Cli.sequential_loop _ _ _ _ _ _ _ _ _ _ _ _ _ _ _ _ _ _ _ _ _ _ _ _ _ _ _)
    as [[res st'] store'].
  destruct H as ((more & Hres & Hmore) & H2 & H3 & H4 & H5).
  simpl in Hres. subst res.
  split; [exact H2|]. split; [intro Hc; split; [exact (H3 Hc)|exact (Hmore Hc)]|].
  split; [exact H4|exact H5].
Qed.

(** With a cache, a document whose bytes cannot be read makes
    [cache.get] raise; the loop's [except Exception] only logs it, so the
    document is counted neither as processed nor as failed. When no
    document can be read, [_process_sequential] returns no results and
    leaves [stats] and the cache as they were. *)
Theorem sequential_unreadable_uncounted (pdf_files search_names : list text) (threshold : Z)
    (stats : ProcessingStats) (c : Cache.ResultCache) (box_level : bool)
    (min_confidence : Q) (store : Cache.store SearchResult) :
  (forall p, In p pdf_files -> fs p = None) ->
  Cli.process_sequential sha256_hex encode str_int image image_to_string image_to_data
    mentions_timeout MAX_PDF_SIZE_MB MAX_PDF_PAGES name_of doc_entry doc_conv doc_page
    doc_error_line fs clock_get clock_set write pdf_files search_names threshold stats (Some c)
    box_level min_confidence store = ([], stats, store).
Proof.
  unfold Cli.process_sequential. generalize (@nil SearchResult) as all.
  induction pdf_files as [|p rest IH]; intros all Hfs; [reflexivity|].
  cbn [Cli.sequential_loop]. unfold Cache.get at 1.
  rewrite (Hfs p (or_introl eq_refl)).
  apply IH. intros q Hq. exact (Hfs q (or_intror Hq)).
Qed.

(** A document found in the cache is counted in [files_processed] and
    its cached results are returned, but [matches_found] is not increased
    (unlike [_process_parallel], which adds the length of every returned
    result list). When every document hits the cache,
    [_process_sequential] returns the cached results in order, adds the
    number of documents to [files_processed] and changes nothing else. *)
Theorem sequential_all_cached (pdf_files search_names : list text) (threshold : Z)
    (stats : ProcessingStats) (c : Cache.ResultCache) (box_level : bool)
    (min_confidence : Q) (store : Cache.store SearchResult) :
  (forall p, In p pdf_files -> exists cached,
     fst (Cache.get sha256_hex encode str_int SearchResult c fs store (clock_get p) p
            search_names threshold) = Cache.Returned (Some cached)) ->
  Cli.process_sequential sha256_hex encode str_int image image_to_string image_to_data
    mentions_timeout MAX_PDF_SIZE_MB MAX_PDF_PAGES name_of doc_entry doc_conv doc_page
    doc_error_line fs clock_get clock_set write pdf_files search_names threshold stats (Some c)
    box_level min_confidence store =
  (flat_map (fun p =>
     match fst (Cache.get sha256_hex encode str_int SearchResult c fs store (clock_get p) p
                  search_names threshold) with
     | Cache.Returned (Some l) => l
     | _ => []
     end) pdf_files,
   MkStats (files_processed stats + length pdf_files) (files_failed stats)
           (pages_processed stats) (matches_found stats) (errors stats),
   store).
Proof.
  unfold Cli.process_sequential.
  set (hit := fun p =>
     match fst (Cache.get sha256_hex encode str_int SearchResult c fs store (clock_get p) p
                  search_names threshold) with
     | Cache.Returned (Some l) => l
     | _ => []
     end).
  intro Hhit. rewrite <- (app_nil_l (flat_map hit pdf_files)).
  generalize (@nil SearchResult) as all. revert stats.
  induction pdf_files as [|p rest IH]; intros stats all.
  - simpl. rewrite Nat.add_0_r, app_nil_r. destruct stats; reflexivity.
  - cbn [Cli.sequential_loop].
    destruct (Hhit p (or_introl eq_refl)) as [cached Hc].
    pose proof (ExtraFacts.get_hit_store sha256_hex encode str_int SearchResult c fs store
                  (clock_get p) p search_names threshold cached Hc) as Hs.
    assert (Hp : hit p = cached) by (unfold hit; rewrite Hc; reflexivity).
    destruct (Cache.get sha256_hex encode str_int SearchResult c fs store (clock_get p) p
                search_names threshold) as [o store1] eqn:Eg.
    simpl in Hc, Hs. subst o store1.
    rewrite IH by (intros q Hq; exact (Hhit q (or_intror Hq))).
    cbn [flat_map length Cli.files_processed_inc files_processed files_failed pages_processed
         matches_found errors].
    rewrite Hp, app_assoc, Nat.add_succ_r. reflexivity.
Qed.

End CliFacts.

Lemma sequential_unreadable_uncounted_witness :
  (forall p, In p [[49%N]; [50%N]] -> (fun _ : text => @None (list N)) p = None) /\
  Cli.process_sequential (fun l => l) (fun s => s) (fun _ => []) unit (fun _ => inl [])
    (fun _ => inl []) (fun _ => false) 50 100 (fun s => s) (fun _ => Validation.Missing)
    (fun _ => Ocr.Converted 0) (fun _ _ => tt) (fun _ _ => []) (fun _ => None)
    (fun _ => 0%Z) (fun _ => 0%Z) (fun _ => Cache.WriteOk) [[49%N]; [50%N]] [[97%N]] 80
    (Parallel.MkStats 0 0 0 0 []) (Some Samples.default_cache) false 60
    (fun _ => None)
  = ([], Parallel.MkStats 0 0 0 0 [], fun _ => None).
Proof.
  assert (H : forall p, In p [[49%N]; [50%N]] -> (fun _ : text => @None (list N)) p = None)
    by (intros; reflexivity).
  split; [exact H|].
  exact (sequential_unreadable_uncounted (fun l => l) (fun s => s) (fun _ => []) unit
           (fun _ => inl []) (fun _ => inl []) (fun _ => false) 50 100 (fun s => s)
           (fun _ => Validation.Missing) (fun _ => Ocr.Converted 0) (fun _ _ => tt)
           (fun _ _ => []) (fun _ => None) (fun _ => 0%Z) (fun _ => 0%Z) (fun _ => Cache.WriteOk)
           [[49%N]; [50%N]] [[97%N]] 80 (Parallel.MkStats 0 0 0 0 []) Samples.default_cache
           false 60 (fun _ => None) H).
Defined.

Lemma sequential_all_cached_witness :
  (forall p, In p [[49%N]; [50%N]] -> exists cached,
     fst (Cache.get (fun l => l) (fun s => s) (fun _ => []) Exports.SearchResult
            Samples.default_cache (fun _ => Some []) CliSamples.cached_store 0 p [[97%N]] 80)
     = Cache.Returned (Some cached)) /\
  let '(res, st', _) :=
    Cli.process_sequential (fun l => l) (fun s => s) (fun _ => []) unit (fun _ => inl [])
      (fun _ => inl []) (fun _ => false) 50 100 (fun s => s) (fun _ => Validation.Missing)
      (fun _ => Ocr.Converted 0) (fun _ _ => tt) (fun _ _ => []) (fun _ => Some [])
      (fun _ => 0%Z) (fun _ => 0%Z) (fun _ => Cache.WriteOk) [[49%N]; [50%N]] [[97%N]] 80
      (Parallel.MkStats 0 0 0 0 []) (Some Samples.default_cache) false 60 CliSamples.cached_store in
  length res = 2 /\ Parallel.files_processed st' = 2 /\ Parallel.matches_found st' = 0.
Proof.
  assert (H : forall p, In p [[49%N]; [50%N]] -> exists cached,
     fst (Cache.get (fun l => l) (fun s => s) (fun _ => []) Exports.SearchResult
            Samples.default_cache (fun _ => Some []) CliSamples.cached_store 0 p [[97%N]] 80)
     = Cache.Returned (Some cached))
    by (intros p _; eexists; reflexivity).
  split; [exact H|].
  rewrite (sequential_all_cached (fun l => l) (fun s => s) (fun _ => []) unit
             (fun _ => inl []) (fun _ => inl []) (fun _ => false) 50 100 (fun s => s)
             (fun _ => Validation.Missing) (fun _ => Ocr.Converted 0) (fun _ _ => tt)
             (fun _ _ => []) (fun _ => Some []) (fun _ => 0%Z) (fun _ => 0%Z)
             (fun _ => Cache.WriteOk) [[49%N]; [50%N]] [[97%N]] 80 (Parallel.MkStats 0 0 0 0 [])
             Samples.default_cache false 60 CliSamples.cached_store H).
  vm_compute. split; [reflexivity|split; reflexivity].
Defined.

Section ModeFacts.
Import Exports Parallel Ocr.
Variable sha256_hex : list N -> text.
Variable encode : text -> list N.
Variable str_int : Z -> text.
Variable image : Type.
Variable image_to_string : image -> text + tess_error.
Variable image_to_data : image -> list tess_row + tess_error.
Variable mentions_timeout : text -> bool.
Variable MAX_PDF_SIZE_MB MAX_PDF_PAGES : Z.
Variable name_of : text -> text.
Variable doc_entry : text -> Validation.fs_entry.
Variable doc_conv : text -> conversion.
Variable doc_page : text -> nat -> image.
Variable doc_error_line : text -> pdf_failure -> text.
Variable fs : Cache.docs.
Variable clock_get clock_set : text -> Z.
Variable write : text -> Cache.write_result.
Variable exc_msg : text -> text.

(** A PDF of allowed size that cannot be opened is counted differently
    by the two modes (without a cache). [process_pdf] records it as
    failed in the stats it is given and returns [[]]. The sequential loop
    passes the shared stats, so the document counts as failed with one
    error line. The parallel worker passes a throw-away
    [ProcessingStats()] and returns [[]], so [_process_parallel] counts
    the document as processed and records no error. *)
Theorem unreadable_pdf_modes (pdf_path : text) (data : list N) (search_names : list text)
    (threshold : Z) (stats : ProcessingStats) (box_level : bool) (min_confidence : Q)
    (store : Cache.store SearchResult) :
  doc_entry pdf_path = Validation.RegFile false data ->
  (Z.of_nat (length data) <= MAX_PDF_SIZE_MB * 1048576)%Z ->
  Cli.process_sequential sha256_hex encode str_int image image_to_string image_to_data
    mentions_timeout MAX_PDF_SIZE_MB MAX_PDF_PAGES name_of doc_entry doc_conv doc_page
    doc_error_line fs clock_get clock_set write [pdf_path] search_names threshold stats None
    box_level min_confidence store
  = ([], MkStats (files_processed stats) (S (files_failed stats)) (pages_processed stats)
              (matches_found stats) (errors stats ++ [doc_error_line pdf_path OpenFailed]),
     store) /\
  collect_cli text SearchResult name_of
    (fun p => fst (Cli.process_pdf_worker sha256_hex encode str_int image image_to_string
                     image_to_data mentions_timeout MAX_PDF_SIZE_MB MAX_PDF_PAGES name_of doc_entry
                     doc_conv doc_page doc_error_line fs clock_get clock_set write exc_msg p
                     search_names threshold None box_level min_confidence store))
    [pdf_path] [] stats
  = ([], MkStats (S (files_processed stats)) (files_failed stats) (pages_processed stats)
              (matches_found stats + 0) (errors stats)).
Proof.
  intros He Hs.
  assert (Hv : Validation.validate_pdf_file MAX_PDF_SIZE_MB (doc_entry pdf_path) = Validation.VOSError).
  { rewrite He. unfold Validation.validate_pdf_file.
    apply ExtraFacts.size_ok in Hs. rewrite Hs. reflexivity. }
  unfold Cli.process_sequential, Cli.process_pdf_worker. cbn [Cli.sequential_loop collect_cli].
  unfold Cli.run_pdf, process_pdf. rewrite Hv. split; reflexivity.
Qed.

(** With the cache on, a document whose bytes cannot be read makes
    [cache.get] raise. The parallel worker lets the exception out, so
    [_process_parallel] counts the document as failed with one error
    line; the sequential loop swallows it and counts nothing. *)
Theorem cache_get_raises_modes (pdf_path : text) (search_names : list text)
    (threshold : Z) (stats : ProcessingStats) (c : Cache.ResultCache) (box_level : bool)
    (min_confidence : Q) (store : Cache.store SearchResult) :
  fs pdf_path = None ->
  Cli.process_sequential sha256_hex encode str_int image image_to_string image_to_data
    mentions_timeout MAX_PDF_SIZE_MB MAX_PDF_PAGES name_of doc_entry doc_conv doc_page
    doc_error_line fs clock_get clock_set write [pdf_path] search_names threshold stats (Some c)
    box_level min_confidence store
  = ([], stats, store) /\
  collect_cli text SearchResult name_of
    (fun p => fst (Cli.process_pdf_worker sha256_hex encode str_int image image_to_string
                     image_to_data mentions_timeout MAX_PDF_SIZE_MB MAX_PDF_PAGES name_of doc_entry
                     doc_conv doc_page doc_error_line fs clock_get clock_set write exc_msg p
                     search_names threshold (Some c) box_level min_confidence store))
    [pdf_path] [] stats
  = ([], MkStats (files_processed stats) (S (files_failed stats)) (pages_processed stats)
              (matches_found stats)
              (errors stats ++ [err_line text name_of pdf_path (exc_msg pdf_path)])).
Proof.
  intro Hf.
  unfold Cli.process_sequential, Cli.process_pdf_worker. cbn [Cli.sequential_loop collect_cli].
  unfold Cache.get. rewrite Hf. split; reflexivity.
Qed.

End ModeFacts.

Lemma unreadable_pdf_modes_witness :
  (fun _ : text => Validation.RegFile false Validation.PDF_MAGIC) [49%N]
    = Validation.RegFile false Validation.PDF_MAGIC /\
  (Z.of_nat (length Validation.PDF_MAGIC) <= 50 * 1048576)%Z /\
  snd (Parallel.collect_cli text Exports.SearchResult (fun s => s)
    (fun p => fst (Cli.process_pdf_worker (fun l => l) (fun s => s) (fun _ => []) unit
                     (fun _ => inl []) (fun _ => inl []) (fun _ => false) 50 100 (fun s => s)
                     (fun _ => Validation.RegFile false Validation.PDF_MAGIC)
                     (fun _ => Ocr.Converted 0) (fun _ _ => tt) (fun _ _ => []) (fun _ => None)
                     (fun _ => 0%Z) (fun _ => 0%Z) (fun _ => Cache.WriteOk) (fun _ => []) p
                     [[97%N]] 80 None false 60 (fun _ => None)))
    [[49%N]] [] (Parallel.MkStats 0 0 0 0 []))
  = Parallel.MkStats 1 0 0 0 [].
Proof.
  assert (He : (fun _ : text => Validation.RegFile false Validation.PDF_MAGIC) [49%N]
               = Validation.RegFile false Validation.PDF_MAGIC) by reflexivity.
  assert (Hs : (Z.of_nat (length Validation.PDF_MAGIC) <= 50 * 1048576)%Z) by (simpl; lia).
  split; [exact He|]. split; [exact Hs|].
  exact (f_equal snd (proj2 (unreadable_pdf_modes (fun l => l) (fun s => s) (fun _ => []) unit
             (fun _ => inl []) (fun _ => inl []) (fun _ => false) 50 100 (fun s => s)
             (fun _ => Validation.RegFile false Validation.PDF_MAGIC) (fun _ => Ocr.Converted 0)
             (fun _ _ => tt) (fun _ _ => []) (fun _ => None) (fun _ => 0%Z) (fun _ => 0%Z)
             (fun _ => Cache.WriteOk) (fun _ => []) [49%N] Validation.PDF_MAGIC [[97%N]] 80
             (Parallel.MkStats 0 0 0 0 []) false 60 (fun _ => None) He Hs))).
Defined.

Lemma cache_get_raises_modes_witness :
  (fun _ : text => @None (list N)) [49%N] = None /\
  snd (Parallel.collect_cli text Exports.SearchResult (fun s => s)
    (fun p => fst (Cli.process_pdf_worker (fun l => l) (fun s => s) (fun _ => []) unit
                     (fun _ => inl []) (fun _ => inl []) (fun _ => false) 50 100 (fun s => s)
                     (fun _ => Validation.Missing) (fun _ => Ocr.Converted 0) (fun _ _ => tt)
                     (fun _ _ => []) (fun _ => None) (fun _ => 0%Z) (fun _ => 0%Z)
                     (fun _ => Cache.WriteOk) (fun _ => []) p [[97%N]] 80
                     (Some Samples.default_cache) false 60 (fun _ => None)))
    [[49%N]] [] (Parallel.MkStats 0 0 0 0 []))
  = Parallel.MkStats 0 1 0 0 [[49; 58; 32]%N].
Proof.
  assert (Hf : (fun _ : text => @None (list N)) [49%N] = None) by reflexivity.
  split; [exact Hf|].
  exact (f_equal snd (proj2 (cache_get_raises_modes (fun l => l) (fun s => s) (fun _ => []) unit
             (fun _ => inl []) (fun _ => inl []) (fun _ => false) 50 100 (fun s => s)
             (fun _ => Validation.Missing) (fun _ => Ocr.Converted 0) (fun _ _ => tt)
             (fun _ _ => []) (fun _ => None) (fun _ => 0%Z) (fun _ => 0%Z)
             (fun _ => Cache.WriteOk) (fun _ => []) [49%N] [[97%N]] 80
             (Parallel.MkStats 0 0 0 0 []) Samples.default_cache false 60 (fun _ => None) Hf))).
Defined.

End Extras.
